(** * httprunner / uixt: device tools and image content sniffing

    A shallow embedding of

      - [DetectAndRenameImageFile]  (image type detection and renaming), and
      - the MCP device tools of [uixt/mcp_tools_device.go]
        ([list_available_devices], [push_image], [clear_image]),

    together with the properties of these functions that the repository's
    specification states.

    Go strings are byte strings and are modelled by [string]; byte slices
    are lists of integers in [0, 256); Go maps with string keys are
    [gmap string _]; a Go [error] is an [option error], [None] being [nil].
    Calls that leave the program (file system, network, device drivers) are
    modelled in a state monad over the history of such calls: each call asks
    the environment for its answer and appends an event to the history. *)

From Stdlib Require Import ZArith Ascii String List Bool Lia.
From stdpp Require Import base option list gmap strings pretty.

Local Open Scope string_scope.
Local Open Scope list_scope.
Local Open Scope Z_scope.

(** ** Go standard library: [strings] *)

Module strings.

(** [strings.HasPrefix s prefix]. *)
Fixpoint HasPrefix (s prefix : string) {struct prefix} : bool :=
  match prefix with
  | EmptyString => true
  | String c prefix' =>
      match s with
      | EmptyString => false
      | String d s' => if Ascii.eqb c d then HasPrefix s' prefix' else false
      end
  end.

(** [strings.Contains s substr]: [substr] occurs at some index of [s]. *)
Fixpoint Contains (s substr : string) : bool :=
  HasPrefix s substr ||
  match s with
  | EmptyString => false
  | String _ s' => Contains s' substr
  end.

(** [strings.Join elems sep]. *)
Fixpoint Join (elems : list string) (sep : string) : string :=
  match elems with
  | [] => ""
  | [e] => e
  | e :: rest => e +:+ sep +:+ Join rest sep
  end.

End strings.

(** ** Go standard library: [path/filepath] (Unix: separator [/], no volume names) *)

Module filepath.

Definition Separator : ascii := "/"%char.

Definition IsPathSeparator (c : ascii) : bool := Ascii.eqb c Separator.

Definition isDot (c : ascii) : bool := Ascii.eqb c "."%char.

(** [path[i]], for [i] in range. *)
Definition index (path : list ascii) (i : nat) : ascii := nth i path "000"%char.

(** [r == n || os.IsPathSeparator(path[r])], where [rest = path[r:]]. *)
Definition atEndOrSeparator (rest : list ascii) : bool :=
  match rest with
  | [] => true
  | c :: _ => IsPathSeparator c
  end.

(** The [..] case of [Clean] when it can backtrack:
    [out.w--; for out.w > dotdot && !os.IsPathSeparator(out.index(out.w)) { out.w-- }].
    [w] is the write index after the first decrement; the result is the
    final write index. *)
Fixpoint backtrack (fuel : nat) (out : list ascii) (w dotdot : nat) : nat :=
  match fuel with
  | O => w
  | S fuel' =>
      if (dotdot <? w)%nat && negb (IsPathSeparator (index out w))
      then backtrack fuel' out (w - 1)%nat dotdot
      else w
  end.

(** [for ; r < n && !os.IsPathSeparator(path[r]); r++ { out.append(path[r]) }]:
    the copied element and the rest of the path. *)
Fixpoint copyElement (rest : list ascii) : list ascii * list ascii :=
  match rest with
  | [] => ([], [])
  | c :: rest' =>
      if IsPathSeparator c then ([], rest)
      else let '(elem, rest'') := copyElement rest' in (c :: elem, rest'')
  end.

(** The main loop of [Clean], [for r < n { switch ... }].  [rest] is
    [path[r:]], [out] the contents of the output buffer ([out.w] is its
    length).  Every iteration advances [r], so [List.length rest] iterations
    are enough. *)
Fixpoint cleanLoop (fuel : nat) (rooted : bool) (rest out : list ascii) (dotdot : nat)
  : list ascii :=
  match fuel with
  | O => out
  | S fuel' =>
      match rest with
      | [] => out
      | c :: rest1 =>
          if IsPathSeparator c then
            (* empty path element *)
            cleanLoop fuel' rooted rest1 out dotdot
          else if isDot c && atEndOrSeparator rest1 then
            (* . element *)
            cleanLoop fuel' rooted rest1 out dotdot
          else if isDot c &&
                  match rest1 with
                  | d :: rest2 => isDot d && atEndOrSeparator rest2
                  | [] => false
                  end then
            (* .. element: remove to last separator *)
            let rest2 := tl rest1 in
            if (dotdot <? List.length out)%nat then
              (* can backtrack *)
              let w := backtrack (List.length out) out (List.length out - 1)%nat dotdot in
              cleanLoop fuel' rooted rest2 (take w out) dotdot
            else if negb rooted then
              (* cannot backtrack, but not rooted, so append .. element *)
              let out1 := if (0 <? List.length out)%nat then out ++ [Separator] else out in
              let out2 := out1 ++ ["."%char; "."%char] in
              cleanLoop fuel' rooted rest2 out2 (List.length out2)
            else
              cleanLoop fuel' rooted rest2 out dotdot
          else
            (* real path element: add slash if needed, copy element *)
            let out1 :=
              if (rooted && negb (List.length out =? 1)%nat) ||
                 (negb rooted && negb (List.length out =? 0)%nat)
              then out ++ [Separator] else out in
            let '(elem, rest') := copyElement rest in
            cleanLoop fuel' rooted rest' (out1 ++ elem) dotdot
      end
  end.

Definition cleanChars (path : list ascii) : list ascii :=
  match path with
  | [] => ["."%char]
  | c :: rest =>
      let rooted := IsPathSeparator c in
      let out :=
        if rooted
        then cleanLoop (List.length rest) rooted rest [Separator] 1%nat
        else cleanLoop (List.length path) rooted path [] 0%nat in
      (* Turn empty string into "." *)
      match out with
      | [] => ["."%char]
      | _ => out
      end
  end.

(** [filepath.Clean]. *)
Definition Clean (path : string) : string :=
  string_of_list_ascii (cleanChars (list_ascii_of_string path)).

(** [i := len(path) - 1; for i >= 0 && !os.IsPathSeparator(path[i]) { i-- }],
    started at [i = k - 1]; the result is [i + 1]. *)
Fixpoint lastSeparator (path : list ascii) (k : nat) : nat :=
  match k with
  | O => O
  | S k' => if IsPathSeparator (index path k') then k else lastSeparator path k'
  end.

(** [for len(path) > 0 && os.IsPathSeparator(path[len(path)-1]) { path = path[0 : len(path)-1] }],
    started at length [k]; the result is the final length. *)
Fixpoint stripTrailing (path : list ascii) (k : nat) : nat :=
  match k with
  | O => O
  | S k' => if IsPathSeparator (index path k') then stripTrailing path k' else k
  end.

(** [filepath.Base]. *)
Definition Base (path : string) : string :=
  match path with
  | EmptyString => "."
  | _ =>
      let p := list_ascii_of_string path in
      (* Strip trailing slashes. *)
      let p := take (stripTrailing p (List.length p)) p in
      (* Find the last element *)
      let p := drop (lastSeparator p (List.length p)) p in
      (* If empty now, it had only slashes. *)
      match p with
      | [] => String Separator EmptyString
      | _ => string_of_list_ascii p
      end
  end.

(** [filepath.Dir]. *)
Definition Dir (path : string) : string :=
  let p := list_ascii_of_string path in
  string_of_list_ascii (cleanChars (take (lastSeparator p (List.length p)) p)).

(** [filepath.Join]: the elements from the first non-empty one on are
    joined with the separator and cleaned. *)
Fixpoint Join (elem : list string) : string :=
  match elem with
  | [] => ""
  | e :: rest =>
      if String.eqb e "" then Join rest
      else Clean (strings.Join elem (String Separator EmptyString))
  end.

End filepath.

(** ** Byte slices *)

(** A byte slice; every element is in [0, 256). *)
Abbreviation bytes := (list Z) (only parsing).

(** [[]byte(s)]. *)
Definition bytes_of_string (s : string) : bytes :=
  map (fun c => Z.of_N (N_of_ascii c)) (list_ascii_of_string s).

(** [data[i]], for [i] in range. *)
Definition byte_at (data : bytes) (i : nat) : Z := nth i data 0.

(** [bytes.HasPrefix data prefix]. *)
Fixpoint bytes_HasPrefix (data prefix : bytes) {struct prefix} : bool :=
  match prefix with
  | [] => true
  | p :: prefix' =>
      match data with
      | [] => false
      | d :: data' => (d =? p) && bytes_HasPrefix data' prefix'
      end
  end.

(** ** Go standard library: [net/http] content sniffing ([sniff.go]) *)

Module http.

(** The algorithm uses at most [sniffLen] bytes to make its decision. *)
Definition sniffLen : nat := 512.

(** Whitespace bytes: tab, line feed, form feed, carriage return, space. *)
Definition isWS (b : Z) : bool :=
  (b =? 0x09) || (b =? 0x0A) || (b =? 0x0C) || (b =? 0x0D) || (b =? 0x20).

(** Tag-terminating bytes: space and [>]. *)
Definition isTT (b : Z) : bool := (b =? 0x20) || (b =? 0x3E).

Inductive sniffSig : Type :=
| htmlSig (h : bytes)
| maskedSig (mask pat : bytes) (skipWS : bool) (ct : string)
| exactSig (sig : bytes) (ct : string)
| mp4Sig
| textSig.

(** [for i, pb := range m.pat { if data[i] & m.mask[i] != pb { return "" } }]. *)
Fixpoint maskedMatch (data mask pat : bytes) {struct pat} : bool :=
  match pat, mask, data with
  | [], _, _ => true
  | pb :: pat', mb :: mask', d :: data' =>
      (Z.land d mb =? pb) && maskedMatch data' mask' pat'
  | _, _, _ => false
  end.

(** The loop of [htmlSig.match]: an upper-case pattern byte is compared
    with the data byte masked by [0xDF]. *)
Fixpoint htmlMatch (data h : bytes) {struct h} : bool :=
  match h, data with
  | [], _ => true
  | b :: h', db :: data' =>
      let db := if (0x41 <=? b) && (b <=? 0x5A) then Z.land db 0xDF else db in
      (b =? db) && htmlMatch data' h'
  | _, _ => false
  end.

(** [binary.BigEndian.Uint32(data[:4])]. *)
Definition bigEndianUint32 (data : bytes) : Z :=
  Z.lor (Z.lor (Z.lor (Z.shiftl (byte_at data 0) 24) (Z.shiftl (byte_at data 1) 16))
               (Z.shiftl (byte_at data 2) 8))
        (byte_at data 3).

(** [for st := 8; st < boxSize; st += 4 { ... }] of [mp4Sig.match];
    [boxSize] is at most [len(data)] here, which bounds the iterations. *)
Fixpoint mp4Loop (fuel : nat) (data : bytes) (st boxSize : Z) : bool :=
  match fuel with
  | O => false
  | S fuel' =>
      if st <? boxSize then
        if st =? 12 then
          (* Ignores the four bytes that correspond to the version number
             of the "major brand". *)
          mp4Loop fuel' data (st + 4) boxSize
        else if bytes_HasPrefix (drop (Z.to_nat st) data) (bytes_of_string "mp4") then true
        else mp4Loop fuel' data (st + 4) boxSize
      else false
  end.

(** [sig.match(data, firstNonWS)]: the MIME type of the data, or [""] if
    unknown. *)
Definition sigMatch (sig : sniffSig) (data : bytes) (firstNonWS : nat) : string :=
  match sig with
  | exactSig s ct => if bytes_HasPrefix data s then ct else ""
  | maskedSig mask pat skipWS ct =>
      let data := if skipWS then drop firstNonWS data else data in
      if negb (List.length pat =? List.length mask)%nat then ""
      else if (List.length data <? List.length pat)%nat then ""
      else if maskedMatch data mask pat then ct else ""
  | htmlSig h =>
      let data := drop firstNonWS data in
      if (List.length data <? List.length h + 1)%nat then ""
      else if negb (htmlMatch data h) then ""
      else if negb (isTT (byte_at data (List.length h))) then ""
      else "text/html; charset=utf-8"
  | mp4Sig =>
      if (List.length data <? 12)%nat then ""
      else
        let boxSize := bigEndianUint32 data in
        if (Z.of_nat (List.length data) <? boxSize) || negb (boxSize mod 4 =? 0) then ""
        else if negb (bytes_HasPrefix (drop 4 data) (bytes_of_string "ftyp")) then ""
        else if mp4Loop (List.length data) data 8 boxSize then "video/mp4" else ""
  | textSig =>
      if forallb (fun b => negb ((b <=? 0x08) || (b =? 0x0B) ||
                                 ((0x0E <=? b) && (b <=? 0x1A)) ||
                                 ((0x1C <=? b) && (b <=? 0x1F))))
                 (drop firstNonWS data)
      then "text/plain; charset=utf-8" else ""
  end.

Definition html (tag : string) : sniffSig := htmlSig (bytes_of_string tag).
Definition exactBytes (sig : bytes) (ct : string) : sniffSig := exactSig sig ct.
Definition exactText (sig : string) (ct : string) : sniffSig := exactSig (bytes_of_string sig) ct.

(** Data matching the table in section 6 of the MIME sniffing standard. *)
Definition sniffSignatures : list sniffSig :=
  [ html "<!DOCTYPE HTML"; html "<HTML"; html "<HEAD"; html "<SCRIPT";
    html "<IFRAME"; html "<H1"; html "<DIV"; html "<FONT"; html "<TABLE";
    html "<A"; html "<STYLE"; html "<TITLE"; html "<B"; html "<BODY";
    html "<BR"; html "<P"; html "<!--";
    maskedSig [0xFF; 0xFF; 0xFF; 0xFF; 0xFF] (bytes_of_string "<?xml") true
              "text/xml; charset=utf-8";
    exactText "%PDF-" "application/pdf";
    exactText "%!PS-Adobe-" "application/postscript";
    (* UTF BOMs. *)
    maskedSig [0xFF; 0xFF; 0x00; 0x00] [0xFE; 0xFF; 0x00; 0x00] false
              "text/plain; charset=utf-16be";
    maskedSig [0xFF; 0xFF; 0x00; 0x00] [0xFF; 0xFE; 0x00; 0x00] false
              "text/plain; charset=utf-16le";
    maskedSig [0xFF; 0xFF; 0xFF; 0x00] [0xEF; 0xBB; 0xBF; 0x00] false
              "text/plain; charset=utf-8";
    (* Image types *)
    exactBytes [0x00; 0x00; 0x01; 0x00] "image/x-icon";
    exactBytes [0x00; 0x00; 0x02; 0x00] "image/x-icon";
    exactText "BM" "image/bmp";
    exactText "GIF87a" "image/gif";
    exactText "GIF89a" "image/gif";
    exactBytes ([0x89] ++ bytes_of_string "PNG" ++ [0x0D; 0x0A; 0x1A; 0x0A]) "image/png";
    exactBytes [0xFF; 0xD8; 0xFF] "image/jpeg";
    maskedSig [0xFF; 0xFF; 0xFF; 0xFF; 0x00; 0x00; 0x00; 0x00;
               0xFF; 0xFF; 0xFF; 0xFF; 0xFF; 0xFF]
              (bytes_of_string "RIFF" ++ [0x00; 0x00; 0x00; 0x00] ++ bytes_of_string "WEBPVP")
              false "image/webp";
    (* Audio and Video types *)
    maskedSig [0xFF; 0xFF; 0xFF; 0xFF] (bytes_of_string ".snd") false "audio/basic";
    maskedSig [0xFF; 0xFF; 0xFF; 0xFF; 0x00; 0x00; 0x00; 0x00; 0xFF; 0xFF; 0xFF; 0xFF]
              (bytes_of_string "FORM" ++ [0x00; 0x00; 0x00; 0x00] ++ bytes_of_string "AIFF")
              false "audio/aiff";
    maskedSig [0xFF; 0xFF; 0xFF] (bytes_of_string "ID3") false "audio/mpeg";
    maskedSig [0xFF; 0xFF; 0xFF; 0xFF; 0xFF] (bytes_of_string "OggS" ++ [0x00]) false
              "application/ogg";
    maskedSig [0xFF; 0xFF; 0xFF; 0xFF; 0xFF; 0xFF; 0xFF; 0xFF]
              (bytes_of_string "MThd" ++ [0x00; 0x00; 0x00; 0x06]) false "audio/midi";
    maskedSig [0xFF; 0xFF; 0xFF; 0xFF; 0x00; 0x00; 0x00; 0x00; 0xFF; 0xFF; 0xFF; 0xFF]
              (bytes_of_string "RIFF" ++ [0x00; 0x00; 0x00; 0x00] ++ bytes_of_string "AVI ")
              false "video/avi";
    maskedSig [0xFF; 0xFF; 0xFF; 0xFF; 0x00; 0x00; 0x00; 0x00; 0xFF; 0xFF; 0xFF; 0xFF]
              (bytes_of_string "RIFF" ++ [0x00; 0x00; 0x00; 0x00] ++ bytes_of_string "WAVE")
              false "audio/wave";
    mp4Sig;
    exactBytes [0x1A; 0x45; 0xDF; 0xA3] "video/webm";
    (* Font types: 34 NULL bytes followed by the string "LP" *)
    maskedSig (replicate 34 0x00 ++ [0xFF; 0xFF])
              (replicate 34 0x00 ++ bytes_of_string "LP") false
              "application/vnd.ms-fontobject";
    exactBytes [0x00; 0x01; 0x00; 0x00] "font/ttf";
    exactText "OTTO" "font/otf";
    exactText "ttcf" "font/collection";
    exactText "wOFF" "font/woff";
    exactText "wOF2" "font/woff2";
    (* Archive types *)
    exactBytes [0x1F; 0x8B; 0x08] "application/x-gzip";
    exactBytes (bytes_of_string "PK" ++ [0x03; 0x04]) "application/zip";
    exactBytes (bytes_of_string "Rar!" ++ [0x1A; 0x07; 0x00]) "application/x-rar-compressed";
    exactBytes (bytes_of_string "Rar!" ++ [0x1A; 0x07; 0x01; 0x00]) "application/x-rar-compressed";
    exactBytes [0x00; 0x61; 0x73; 0x6D] "application/wasm";
    textSig (* should be last *) ].

(** [for ; firstNonWS < len(data) && isWS(data[firstNonWS]); firstNonWS++ {}]. *)
Fixpoint firstNonWS (data : bytes) : nat :=
  match data with
  | [] => O
  | b :: data' => if isWS b then S (firstNonWS data') else O
  end.

(** [for _, sig := range sniffSignatures { if ct := sig.match(...); ct != "" { return ct } }]
    followed by the fallback. *)
Fixpoint firstMatch (sigs : list sniffSig) (data : bytes) (ws : nat) : string :=
  match sigs with
  | [] => "application/octet-stream"
  | sig :: sigs' =>
      let ct := sigMatch sig data ws in
      if negb (String.eqb ct "") then ct else firstMatch sigs' data ws
  end.

(** [http.DetectContentType]. *)
Definition DetectContentType (data : bytes) : string :=
  let data := if (sniffLen <? List.length data)%nat then take sniffLen data else data in
  firstMatch sniffSignatures data (firstNonWS data).

End http.

Definition pngSignature : bytes := [0x89; 0x50; 0x4E; 0x47; 0x0D; 0x0A; 0x1A; 0x0A].

(** ** Errors, dynamic values, and the envelope of a tool call *)

(** A non-nil Go [error]: the sentinel [io.EOF], or an error that carries a
    message ([fmt.Errorf], errors of the operating system or of a driver). *)
Inductive error : Type :=
| io_EOF
| errorString (msg : string).

(** [err.Error()]. *)
Definition Error (e : error) : string :=
  match e with
  | io_EOF => "EOF"
  | errorString msg => msg
  end.

(** [fmt.Errorf(text + "%v", arg)] and [fmt.Errorf(text + "%s", arg)]: the
    formats used here all end in their only verb. *)
Definition fmt_Errorf (text arg : string) : error := errorString (text +:+ arg).

#[global] Instance error_eq_dec : EqDecision error.
Proof. solve_decision. Defined.

(** The dynamic type of a non-nil Go [any]: a string, a bool, a [float64]
    (kept as its 64 bits), or a [map[string]any].  The nil interface, which
    is also what a map yields for a missing key, is [None : option any]. *)
#[warnings="-register-all"] Inductive any : Type :=
| AString (s : string)
| ABool (b : bool)
| AFloat64 (bits : Z)
| AMap (m : gmap string any).

(** [s, ok := v.(string)]. *)
Definition assertString (v : option any) : string * bool :=
  match v with
  | Some (AString s) => (s, true)
  | _ => ("", false)
  end.

(** [b, ok := v.(bool)]. *)
Definition assertBool (v : option any) : bool * bool :=
  match v with
  | Some (ABool b) => (b, true)
  | _ => (false, false)
  end.

(** [m, ok := v.(map[string]interface{})]; reading a nil map yields nil. *)
Definition assertMap (v : option any) : gmap string any * bool :=
  match v with
  | Some (AMap m) => (m, true)
  | _ => (∅, false)
  end.

(** The return data of the three tools. *)
Record ToolListAvailableDevices : Type := {
  AndroidDevices : list string;
  IosDevices : list string;
  TotalCount : Z;
  AndroidCount : Z;
  IosCount : Z
}.

Record ToolPushImage : Type := {
  ImagePath : string;
  ImageUrl : string;
  Cleared : bool
}.

Record ToolClearImage : Type := {
  Success : bool
}.

(** The tool whose data a response carries. *)
Inductive ActionTool : Type :=
| ListAvailableDevicesData (d : ToolListAvailableDevices)
| PushImageData (d : ToolPushImage)
| ClearImageData (d : ToolClearImage).

(** Modelled from the spec: the response envelope built by
    [NewMCPSuccessResponse] and [NewMCPErrorResponse] (not in the source
    files at hand) is the tagged variant "Success(message, data)" or
    "Failure(message)". *)
Inductive CallToolResult : Type :=
| ToolSuccess (message : string) (data : ActionTool)
| ToolFailure (message : string).

Definition NewMCPSuccessResponse (message : string) (actionTool : ActionTool) : CallToolResult :=
  ToolSuccess message actionTool.

Definition NewMCPErrorResponse (message : string) : CallToolResult :=
  ToolFailure message.

(** Modelled from the spec: the tool names of package [option] (not in the
    source files at hand), "named operations list_available_devices, ...,
    push_image, clear_image". *)
Definition ACTION_ListAvailableDevices : string := "list_available_devices".
Definition ACTION_PushImage : string := "push_image".
Definition ACTION_ClearImage : string := "clear_image".

(** Modelled from the spec: the fields of [option.MobileAction] that the
    reverse mapping reads, "name + parameters, which may be a bare string, a
    mapping, or custom key-value overrides". *)
Record ActionOptions : Type := {
  Custom : gmap string any
}.

Record MobileAction : Type := {
  Method : string;
  Params : option any;
  Options : ActionOptions
}.

(** ** Devices *)

(** [*gadb.Device]; [Serial()] is its accessor. *)
Record gadb_Device : Type := { Serial : string }.

(** [ios.DeviceEntry] and its [Properties]. *)
Record DeviceProperties : Type := { SerialNumber : string }.
Record DeviceEntry : Type := { DeviceID : Z; Properties : DeviceProperties }.

(** [*IOSDevice] as built by [NewIOSDevice]. *)
Record IOSDevice : Type := { IOSDevice_Properties : DeviceProperties }.

(** [*XTDriver] as resolved by [setupXTDriver]; its [IDriver] is the device
    driver the tools call. *)
Record XTDriver : Type := { DeviceUUID : string }.

(** ** The environment *)

(** One call that leaves the program, with the answer it got. *)
Inductive event : Type :=
| os_Open_call (name : string) (err : option error)
| File_Read_call (name : string) (data : bytes) (err : option error)
| File_Seek_call (name : string) (err : option error)
| File_Close_call (name : string)
| os_Rename_call (oldpath newpath : string) (err : option error)
| os_Remove_call (name : string) (err : option error)
| DownloadFileByUrl_call (url : string) (path : string) (err : option error)
| setupXTDriver_call (arguments : gmap string any) (driver : XTDriver) (err : option error)
| ClearImages_call (driver : XTDriver) (err : option error)
| PushImage_call (driver : XTDriver) (path : string) (err : option error)
| gadb_NewClient_call (err : option error)
| gadb_DeviceList_call (devices : list gadb_Device) (err : option error)
| ios_ListDevices_call (devices : list DeviceEntry) (err : option error)
| NewIOSDevice_call (udid : string) (device : IOSDevice) (err : option error)
| ios_Pair_call (device : DeviceEntry) (err : option error).

(** The environment answers every call from the history of the calls made
    so far.  A Go result [(v, err)] is the pair of [v] and [err]; as in Go,
    [v] is meaningful only when [err] is [None]. *)
Record Env : Type := {
  env_Open : list event → string → option error;
  env_Read : list event → string → nat → bytes * option error;
  env_Seek : list event → string → option error;
  env_Rename : list event → string → string → option error;
  env_Remove : list event → string → option error;
  env_DownloadFileByUrl : list event → string → string * option error;
  env_setupXTDriver : list event → gmap string any → XTDriver * option error;
  env_ClearImages : list event → XTDriver → option error;
  env_PushImage : list event → XTDriver → string → option error;
  env_NewClient : list event → option error;
  env_DeviceList : list event → list gadb_Device * option error;
  env_ListDevices : list event → list DeviceEntry * option error;
  env_NewIOSDevice : list event → string → IOSDevice * option error;
  env_Pair : list event → DeviceEntry → option error
}.

(** Computations that call the environment: a reader of the environment and
    a state monad over the history. *)
Definition M (A : Type) : Type := Env → list event → A * list event.

#[global] Instance M_ret : MRet M := λ A a _ h, (a, h).

#[global] Instance M_bind : MBind M :=
  λ A B f m env h, let '(a, h') := m env h in f a env h'.

(** Ask the environment, record the call with its answer. *)
Definition call {R : Type} (ask : Env → list event → R) (ev : R → event) : M R :=
  λ env h, let r := ask env h in (r, h ++ [ev r]).

(** [defer c] around [body]: [c] runs when [body] has returned. *)
Definition defer {A : Type} (c : M unit) (body : M A) : M A :=
  r ← body; _ ← c; mret r.

Definition os_Open (name : string) : M (option error) :=
  call (λ env h, env_Open env h name) (os_Open_call name).

(** [file.Read(b)]: the environment offers [data] and [err]; at most
    [len(b)] bytes are stored at the start of [b].  The result is the
    buffer after the call, [n] and [err]. *)
Definition File_Read (name : string) (b : bytes) : M (bytes * nat * option error) :=
  λ env h,
    let '(data, err) := env_Read env h name (List.length b) in
    let data := take (List.length b) data in
    ((data ++ drop (List.length data) b, List.length data, err),
     h ++ [File_Read_call name data err]).

Definition File_Seek (name : string) : M (option error) :=
  call (λ env h, env_Seek env h name) (File_Seek_call name).

Definition File_Close (name : string) : M unit :=
  call (λ _ _, tt) (λ _, File_Close_call name).

Definition os_Rename (oldpath newpath : string) : M (option error) :=
  call (λ env h, env_Rename env h oldpath newpath) (os_Rename_call oldpath newpath).

Definition os_Remove (name : string) : M (option error) :=
  call (λ env h, env_Remove env h name) (os_Remove_call name).

Definition DownloadFileByUrl (url : string) : M (string * option error) :=
  call (λ env h, env_DownloadFileByUrl env h url)
       (λ r, DownloadFileByUrl_call url r.1 r.2).

Definition setupXTDriver (arguments : gmap string any) : M (XTDriver * option error) :=
  call (λ env h, env_setupXTDriver env h arguments)
       (λ r, setupXTDriver_call arguments r.1 r.2).

Definition IDriver_ClearImages (driverExt : XTDriver) : M (option error) :=
  call (λ env h, env_ClearImages env h driverExt) (ClearImages_call driverExt).

Definition IDriver_PushImage (driverExt : XTDriver) (path : string) : M (option error) :=
  call (λ env h, env_PushImage env h driverExt path) (PushImage_call driverExt path).

Definition gadb_NewClient : M (option error) :=
  call (λ env h, env_NewClient env h) gadb_NewClient_call.

Definition client_DeviceList : M (list gadb_Device * option error) :=
  call (λ env h, env_DeviceList env h) (λ r, gadb_DeviceList_call r.1 r.2).

Definition ios_ListDevices : M (list DeviceEntry * option error) :=
  call (λ env h, env_ListDevices env h) (λ r, ios_ListDevices_call r.1 r.2).

Definition NewIOSDevice (udid : string) : M (IOSDevice * option error) :=
  call (λ env h, env_NewIOSDevice env h udid) (λ r, NewIOSDevice_call udid r.1 r.2).

Definition ios_Pair (device : DeviceEntry) : M (option error) :=
  call (λ env h, env_Pair env h device) (ios_Pair_call device).

(** ** [DetectAndRenameImageFile] *)

(** The [switch] on the detected content type: the extension, or [None]
    where the source returns the "not a recognized image type" error. *)
Definition imageExtension (contentType : string) : option string :=
  if strings.Contains contentType "image/jpeg" then Some ".jpg"
  else if strings.Contains contentType "image/png" then Some ".png"
  else if strings.Contains contentType "image/gif" then Some ".gif"
  else if strings.Contains contentType "image/webp" then Some ".webp"
  else if strings.Contains contentType "image/bmp" then Some ".bmp"
  else if strings.Contains contentType "image/tiff" then Some ".tiff"
  else if strings.Contains contentType "image/svg+xml" then Some ".svg"
  else
    (* Default to jpg if we can't determine the type but it's still an image *)
    if strings.Contains contentType "image/" then Some ".jpg"
    else None.

(** [err != nil && err != io.EOF]. *)
Definition isReadFailure (err : option error) : bool :=
  match err with
  | None => false
  | Some io_EOF => false
  | Some (errorString _) => true
  end.

(** [DetectAndRenameImageFile] examines the file content to determine its
    image type and renames the file with the appropriate extension.
    (Logging is not modelled.) *)
Definition DetectAndRenameImageFile (filePath : string) : M (string * option error) :=
  (* Open the file *)
  err ← os_Open filePath;
  match err with
  | Some err =>
      mret ("", Some (fmt_Errorf "failed to open file for type detection: " (Error err)))
  | None =>
      defer (File_Close filePath) (
        (* Read the first 512 bytes to detect content type *)
        '(buffer, _, err) ← File_Read filePath (replicate 512 0);
        if isReadFailure err then
          mret ("", Some (fmt_Errorf "failed to read file for type detection: "
                                     (from_option Error "" err)))
        else
          (* Reset file pointer *)
          err ← File_Seek filePath;
          match err with
          | Some err =>
              mret ("", Some (fmt_Errorf "failed to reset file pointer: " (Error err)))
          | None =>
              (* Detect content type *)
              let contentType := http.DetectContentType buffer in
              (* Determine file extension based on content type *)
              match imageExtension contentType with
              | None =>
                  mret (filePath,
                        Some (fmt_Errorf "not a recognized image type: " contentType))
              | Some extension =>
                  (* Create new file path with extension *)
                  let dir := filepath.Dir filePath in
                  let base := filepath.Base filePath in
                  let newFilePath := filepath.Join [dir; base +:+ extension] in
                  (* If the file already has the correct extension, just return it *)
                  if String.eqb filePath newFilePath then mret (filePath, None)
                  else
                    (* Rename the file *)
                    err ← os_Rename filePath newFilePath;
                    match err with
                    | Some err =>
                        mret ("", Some (fmt_Errorf "failed to rename file: " (Error err)))
                    | None => mret (newFilePath, None)
                    end
              end
          end)
  end.

(** ** [list_available_devices] *)

(** [for _, device := range androidDevices { serialList = append(serialList, device.Serial()) }]. *)
Definition androidSerials (androidDevices : list gadb_Device) : list string :=
  map Serial androidDevices.

(** The loop over [iosDevices.DeviceList]: a device whose driver cannot be
    built or that cannot be paired is skipped. *)
Fixpoint iosSerials (devices : list DeviceEntry) (serialList : list string)
  : M (list string) :=
  match devices with
  | [] => mret serialList
  | dev :: devices' =>
      '(device, err) ← NewIOSDevice (SerialNumber (Properties dev));
      match err with
      | Some _ => iosSerials devices' serialList
      | None =>
          let properties := IOSDevice_Properties device in
          err ← ios_Pair dev;
          match err with
          | Some _ => iosSerials devices' serialList
          | None => iosSerials devices' (serialList ++ [SerialNumber properties])
          end
      end
  end.

(** [len(s)] as a Go [int]; slice lengths are far below [2^63], so neither
    the lengths nor their sum wraps around. *)
Definition len {A : Type} (s : list A) : Z := Z.of_nat (List.length s).

(** [deviceList[key]]: a missing key yields the nil slice. *)
Definition deviceListAt (deviceList : gmap string (list string)) (key : string) : list string :=
  default [] (deviceList !! key).

(** [fmt.Sprintf("Found %d available devices (%d Android, %d iOS)", ...)]. *)
Definition foundMessage (total android ios : Z) : string :=
  "Found " +:+ pretty total +:+ " available devices (" +:+ pretty android +:+
  " Android, " +:+ pretty ios +:+ " iOS)".

Definition ToolListAvailableDevices_Implement (request : gmap string any)
  : M (option CallToolResult * option error) :=
  let deviceList : gmap string (list string) := ∅ in
  err ← gadb_NewClient;
  deviceList ←
    match err with
    | None =>
        '(androidDevices, err) ← client_DeviceList;
        match err with
        | None => mret (<["androidDevices" := androidSerials androidDevices]> deviceList)
        | Some _ => mret deviceList
        end
    | Some _ => mret deviceList
    end;
  '(iosDevices, err) ← ios_ListDevices;
  deviceList ←
    match err with
    | None =>
        serialList ← iosSerials iosDevices [];
        mret (<["iosDevices" := serialList]> deviceList)
    | Some _ => mret deviceList
    end;
  (* Create structured response *)
  let totalDevices :=
    len (deviceListAt deviceList "androidDevices") + len (deviceListAt deviceList "iosDevices") in
  let message :=
    foundMessage totalDevices (len (deviceListAt deviceList "androidDevices"))
                 (len (deviceListAt deviceList "iosDevices")) in
  let returnData := {|
    AndroidDevices := deviceListAt deviceList "androidDevices";
    IosDevices := deviceListAt deviceList "iosDevices";
    TotalCount := totalDevices;
    AndroidCount := len (deviceListAt deviceList "androidDevices");
    IosCount := len (deviceListAt deviceList "iosDevices")
  |} in
  mret (Some (NewMCPSuccessResponse message (ListAvailableDevicesData returnData)), None).

(** ** [push_image] *)

(** [if downloadedFile && cleanup { _ = os.Remove(imagePath) }]. *)
Definition cleanupDownloaded (downloadedFile cleanup : bool) (imagePath : string) : M unit :=
  if downloadedFile && cleanup then _ ← os_Remove imagePath; mret tt
  else mret tt.

Definition ToolPushImage_Implement (request : gmap string any)
  : M (option CallToolResult * option error) :=
  '(driverExt, err) ← setupXTDriver request;
  match err with
  | Some err => mret (None, Some err)
  | None =>
      (* Get image path or URL *)
      let '(imagePath, hasPath) := assertString (request !! "imagePath") in
      let '(imageUrl, hasUrl) := assertString (request !! "imageUrl") in
      let '(cleanup, _) := assertBool (request !! "cleanup") in
      let '(clearBefore, _) := assertBool (request !! "clearBefore") in
      (* Check if we have either path or URL *)
      if (negb hasPath || String.eqb imagePath "") && (negb hasUrl || String.eqb imageUrl "")
      then mret (None, Some (errorString "either imagePath or imageUrl is required"))
      else
        (* If we have a URL, download it; [inr] is the early return. *)
        downloaded ←
          (if hasUrl && negb (String.eqb imageUrl "") then
             '(downloadedPath, err) ← DownloadFileByUrl imageUrl;
             match err with
             | Some err =>
                 mret (inr (fmt_Errorf "failed to download image from URL: " (Error err)))
             | None =>
                 (* Detect image type and rename with proper extension *)
                 '(renamedPath, err) ← DetectAndRenameImageFile downloadedPath;
                 match err with
                 | Some _ => mret (inl (downloadedPath, true))
                 | None => mret (inl (renamedPath, true))
                 end
             end
           else mret (inl (imagePath, false)));
        match downloaded with
        | inr err => mret (None, Some err)
        | inl (imagePath, downloadedFile) =>
            (* Clear images before pushing if requested *)
            cleared ←
              (if clearBefore then
                 err ← IDriver_ClearImages driverExt;
                 match err with
                 | Some _ => mret false (* continuing anyway *)
                 | None => mret true
                 end
               else mret false);
            (* Push the image to the device *)
            err ← IDriver_PushImage driverExt imagePath;
            match err with
            | Some err =>
                (* If we downloaded the file and failed to push it, clean up *)
                _ ← cleanupDownloaded downloadedFile cleanup imagePath;
                mret (None, Some err)
            | None =>
                (* Clean up downloaded file if requested *)
                _ ← cleanupDownloaded downloadedFile cleanup imagePath;
                let message := "Successfully pushed image to device" in
                let returnData := {| ImagePath := imagePath; ImageUrl := ""; Cleared := cleared |} in
                (* Include URL in response if it was used *)
                let '(returnData, message) :=
                  if hasUrl && negb (String.eqb imageUrl "") then
                    ({| ImagePath := ImagePath returnData; ImageUrl := imageUrl;
                        Cleared := Cleared returnData |},
                     "Successfully downloaded and pushed image from " +:+ imageUrl +:+ " to device")
                  else (returnData, message) in
                (* Add cleared info to message if applicable *)
                let message :=
                  if cleared then message +:+ " (images cleared before pushing)" else message in
                mret (Some (NewMCPSuccessResponse message (PushImageData returnData)), None)
            end
        end
  end.

(** The argument set that [ToolPushImage.ConvertActionToCallToolRequest]
    builds before it hands it to [BuildMCPCallToolRequest]. *)
Definition pushImageArguments (action : MobileAction) : gmap string any :=
  let arguments : gmap string any := ∅ in
  (* Handle string param as imageUrl *)
  let arguments :=
    let '(imageUrl, ok) := assertString (Params action) in
    if ok && negb (String.eqb imageUrl "") then <["imageUrl" := AString imageUrl]> arguments
    else arguments in
  (* Handle map params with imageUrl or imagePath *)
  let arguments :=
    let '(params, ok) := assertMap (Params action) in
    if ok then
      let arguments :=
        let '(imageUrl, ok) := assertString (params !! "imageUrl") in
        if ok && negb (String.eqb imageUrl "") then <["imageUrl" := AString imageUrl]> arguments
        else arguments in
      let arguments :=
        let '(imagePath, ok) := assertString (params !! "imagePath") in
        if ok && negb (String.eqb imagePath "") then <["imagePath" := AString imagePath]> arguments
        else arguments in
      let arguments :=
        let '(cleanup, ok) := assertBool (params !! "cleanup") in
        if ok then <["cleanup" := ABool cleanup]> arguments else arguments in
      let arguments :=
        let '(clearBefore, ok) := assertBool (params !! "clearBefore") in
        if ok then <["clearBefore" := ABool clearBefore]> arguments else arguments in
      arguments
    else arguments in
  (* Handle custom options *)
  let custom := Custom (Options action) in
  let arguments :=
    let '(imageUrl, ok) := assertString (custom !! "imageUrl") in
    if ok && negb (String.eqb imageUrl "") then <["imageUrl" := AString imageUrl]> arguments
    else arguments in
  let arguments :=
    let '(imagePath, ok) := assertString (custom !! "imagePath") in
    if ok && negb (String.eqb imagePath "") then <["imagePath" := AString imagePath]> arguments
    else arguments in
  let arguments :=
    let '(cleanup, ok) := assertBool (custom !! "cleanup") in
    if ok then <["cleanup" := ABool cleanup]> arguments else arguments in
  let arguments :=
    let '(clearBefore, ok) := assertBool (custom !! "clearBefore") in
    if ok then <["clearBefore" := ABool clearBefore]> arguments else arguments in
  arguments.

Section ReverseMapping.

(** [mcp.CallToolRequest] and [BuildMCPCallToolRequest] are not in the
    source files at hand: the request type and its builder are parameters. *)
Variable CallToolRequest : Type.
Variable BuildMCPCallToolRequest :
  string → gmap string any → MobileAction → CallToolRequest.

Definition ToolPushImage_ConvertActionToCallToolRequest (action : MobileAction)
  : CallToolRequest * option error :=
  (BuildMCPCallToolRequest ACTION_PushImage (pushImageArguments action) action, None).

End ReverseMapping.

(** ** [clear_image] *)

Definition ToolClearImage_Implement (request : gmap string any)
  : M (option CallToolResult * option error) :=
  '(driverExt, err) ← setupXTDriver request;
  match err with
  | Some err => mret (None, Some err)
  | None =>
      err ← IDriver_ClearImages driverExt;
      match err with
      | Some err => mret (None, Some err)
      | None =>
          let message := "Successfully cleared images from device" in
          let returnData := {| Success := true |} in
          mret (Some (NewMCPSuccessResponse message (ClearImageData returnData)), None)
      end
  end.

(** ** Reading a history *)

(** Calls that change the local file system. *)
Definition isFileMutation (e : event) : bool :=
  match e with
  | os_Rename_call _ _ _ | os_Remove_call _ _ => true
  | _ => false
  end.

Definition isRemove (e : event) : bool :=
  match e with
  | os_Remove_call _ _ => true
  | _ => false
  end.

(** The files that downloads have put on the local disk, after one more
    call: a successful download creates its file, a successful rename moves
    it, a successful remove deletes it. *)
Definition fileStep (files : gset string) (e : event) : gset string :=
  match e with
  | DownloadFileByUrl_call _ path None => files ∪ {[path]}
  | os_Rename_call oldpath newpath None =>
      if decide (oldpath ∈ files) then (files ∖ {[oldpath]}) ∪ {[newpath]} else files
  | os_Remove_call name None => files ∖ {[name]}
  | _ => files
  end.

Definition filesAfter (files : gset string) (calls : list event) : gset string :=
  foldl fileStep files calls.

(** A string argument counts as set when it is a non-empty string. *)
Definition unsetString (v : option any) : Prop :=
  ∀ s, v = Some (AString s) → s = "".

(** ** Scripted environments, for examples *)

Definition emulator : gadb_Device := {| Serial := "emulator-5554" |}.
Definition phoneA : DeviceEntry := {| DeviceID := 1; Properties := {| SerialNumber := "00008030-A" |} |}.
Definition phoneB : DeviceEntry := {| DeviceID := 2; Properties := {| SerialNumber := "00008030-B" |} |}.
Definition pixel : XTDriver := {| DeviceUUID := "emulator-5554" |}.

(** Every opened file holds [content]; a download lands in
    [/tmp/download.tmp]; [phoneB] refuses to pair; the other answers are
    as given. *)
Definition scripted (content : bytes) (setup clear push remove : option error) : Env := {|
  env_Open := λ _ _, None;
  env_Read := λ _ _ n,
    match content with
    | [] => ([], Some io_EOF)
    | _ => (take n content, None)
    end;
  env_Seek := λ _ _, None;
  env_Rename := λ _ _ _, None;
  env_Remove := λ _ _, remove;
  env_DownloadFileByUrl := λ _ _, ("/tmp/download.tmp", None);
  env_setupXTDriver := λ _ _, (pixel, setup);
  env_ClearImages := λ _ _, clear;
  env_PushImage := λ _ _ _, push;
  env_NewClient := λ _, None;
  env_DeviceList := λ _, ([emulator], None);
  env_ListDevices := λ _, ([phoneA; phoneB], None);
  env_NewIOSDevice := λ _ udid, ({| IOSDevice_Properties := {| SerialNumber := udid |} |}, None);
  env_Pair := λ _ dev,
    if DeviceID dev =? 2 then Some (errorString "pairing refused") else None
|}.

Definition calm (content : bytes) : Env := scripted content None None None None.

Definition deviceOffline : error := errorString "device offline".

(** ** Vocabulary of the properties *)

(** The buffer that is sniffed when the read offers [data]: the bytes
    read, at most 512, then the zeros the buffer was made with. *)
Definition sniffBuffer (data : bytes) : bytes :=
  take 512 data ++ drop (List.length (take 512 data)) (replicate 512 0).

(** [newFilePath]: the file path with the extension appended to its base. *)
Definition newPath (filePath extension : string) : string :=
  filepath.Join [filepath.Dir filePath; filepath.Base filePath +:+ extension].

(** The calls that a computation adds to the history [h]. *)
Definition callsOf {A : Type} (m : M A) (env : Env) (h : list event) : list event :=
  drop (List.length h) (m env h).2.

(** The part of the [push_image] handler that talks to the device. *)
Definition pushToDevice (driverExt : XTDriver) (imageUrl : string) (usedUrl cleanup clearBefore : bool)
    (imagePath : string) (downloadedFile : bool) (env : Env) (h : list event)
  : (option CallToolResult * option error) * list event :=
  let cleared := if clearBefore then bool_decide (env_ClearImages env h driverExt = None) else false in
  let h1 := if clearBefore then h ++ [ClearImages_call driverExt (env_ClearImages env h driverExt)] else h in
  let pushed := env_PushImage env h1 driverExt imagePath in
  let h2 := h1 ++ [PushImage_call driverExt imagePath pushed] in
  let h3 := if downloadedFile && cleanup
            then h2 ++ [os_Remove_call imagePath (env_Remove env h2 imagePath)] else h2 in
  match pushed with
  | Some err => ((None, Some err), h3)
  | None =>
      let message :=
        if usedUrl
        then "Successfully downloaded and pushed image from " +:+ imageUrl +:+ " to device"
        else "Successfully pushed image to device" in
      let message :=
        if cleared then message +:+ " (images cleared before pushing)" else message in
      ((Some (ToolSuccess message
                (PushImageData {| ImagePath := imagePath;
                                  ImageUrl := if usedUrl then imageUrl else "";
                                  Cleared := cleared |})), None), h3)
  end.

(** The error of [push_image] for a request that names no image. *)
Definition argumentError : error := errorString "either imagePath or imageUrl is required".

(** The table of the specification: image type, extension. *)
Definition imageTypes : list (string * string) :=
  [ ("image/jpeg", ".jpg"); ("image/png", ".png"); ("image/gif", ".gif");
    ("image/webp", ".webp"); ("image/bmp", ".bmp"); ("image/tiff", ".tiff");
    ("image/svg+xml", ".svg") ].

(** The four fields of [push_image] that the reverse mapping fills. *)
Inductive pushImageField : Type :=
| field_imageUrl | field_imagePath | field_cleanup | field_clearBefore.

Definition fieldName (f : pushImageField) : string :=
  match f with
  | field_imageUrl => "imageUrl"
  | field_imagePath => "imagePath"
  | field_cleanup => "cleanup"
  | field_clearBefore => "clearBefore"
  end.

(** The value a mapping supplies for a field: a non-empty string for the
    path and the URL, a bool for the two flags. *)
Definition supplied (f : pushImageField) (m : gmap string any) : option any :=
  match f, m !! fieldName f with
  | (field_imageUrl | field_imagePath), Some (AString s) =>
      if String.eqb s "" then None else Some (AString s)
  | (field_cleanup | field_clearBefore), Some (ABool b) => Some (ABool b)
  | _, _ => None
  end.

(** The three sources of the specification. *)
Definition customOverride (action : MobileAction) (f : pushImageField) : option any :=
  supplied f (Custom (Options action)).

Definition nestedMapping (action : MobileAction) (f : pushImageField) : option any :=
  match Params action with
  | Some (AMap params) => supplied f params
  | _ => None
  end.

Definition bareScalar (action : MobileAction) (f : pushImageField) : option any :=
  match f, Params action with
  | field_imageUrl, Some (AString s) => if String.eqb s "" then None else Some (AString s)
  | _, _ => None
  end.

(** Precedence, highest first: custom overrides, nested mapping, bare scalar. *)
Definition byPrecedence (action : MobileAction) (f : pushImageField) : option any :=
  match customOverride action f with
  | Some v => Some v
  | None =>
      match nestedMapping action f with
      | Some v => Some v
      | None => bareScalar action f
      end
  end.

(** One step of the reverse mapping: a non-empty string is stored. *)
Definition putString (key : string) (v : option any) (arguments : gmap string any)
  : gmap string any :=
  let '(s, ok) := assertString v in
  if ok && negb (String.eqb s "") then <[key := AString s]> arguments else arguments.

(** One step of the reverse mapping: a bool is stored. *)
Definition putBool (key : string) (v : option any) (arguments : gmap string any)
  : gmap string any :=
  let '(b, ok) := assertBool v in
  if ok then <[key := ABool b]> arguments else arguments.

(** An action whose custom overrides and nested mapping disagree on the URL. *)
Definition conflictingAction : MobileAction := {|
  Method := "push_image";
  Params := Some (AMap {[ "imageUrl" := AString "http://nested/a.png"; "cleanup" := ABool true ]});
  Options := {| Custom := {[ "imageUrl" := AString "http://custom/b.png" ]} |}
|}.

(** The calls of the loop over the iOS devices. *)
Definition isPairingCall (e : event) : bool :=
  match e with
  | NewIOSDevice_call _ _ _ | ios_Pair_call _ _ => true
  | _ => false
  end.

(** The calls of [DetectAndRenameImageFile]. *)
Definition isSnifferCall (e : event) : bool :=
  match e with
  | os_Open_call _ _ | File_Read_call _ _ _ | File_Seek_call _ _
  | File_Close_call _ | os_Rename_call _ _ _ => true
  | _ => false
  end.

(** A character that is not the path separator. *)
Definition notSeparator (c : ascii) : Prop := filepath.IsPathSeparator c = false.

(** A path element that [Clean] copies as it is: not empty, without
    separator, and neither [.] nor [..]. *)
Definition realElement (e : list ascii) : Prop :=
  e ≠ [] ∧ Forall notSeparator e ∧ e ≠ ["."%char] ∧ e ≠ ["."%char; "."%char].

(** What [Clean] keeps true of its output buffer on a rooted path. *)
Definition cleanInvariant (rooted : bool) (out : list ascii) (dotdot : nat) : Prop :=
  rooted = true → (∃ t, out = filepath.Separator :: t) ∧ (1 ≤ dotdot)%nat.

(** Example requests. *)
Definition pushFromUrl : gmap string any :=
  {[ "imageUrl" := AString "http://example.com/pic"; "cleanup" := ABool true ]}.

Definition pushAfterClear : gmap string any :=
  {[ "imagePath" := AString "/sdcard/cat.png"; "clearBefore" := ABool true ]}.

(** ** [select_device] *)

(** [driverExt.IDriver.GetDevice().UUID()]. *)
Definition GetDevice_UUID (driverExt : XTDriver) : string := DeviceUUID driverExt.

(** The response envelope (see [CallToolResult]) of a tool whose return
    data is a [T]. *)
Inductive ToolResponse (T : Type) : Type :=
| ResponseSuccess (message : string) (data : T)
| ResponseFailure (message : string).

Arguments ResponseSuccess {T} message data.
Arguments ResponseFailure {T} message.

Module select_device.

(** The return data of the tool. *)
Record ToolSelectDevice : Type := {
  DeviceUUID : string
}.

Definition Implement (request : gmap string any)
  : M (option (ToolResponse ToolSelectDevice) * option error) :=
  '(driverExt, err) ← setupXTDriver request;
  match err with
  | Some err => mret (None, Some err)
  | None =>
      let uuid := GetDevice_UUID driverExt in
      let message := "Selected device: " +:+ uuid in
      let returnData := {| DeviceUUID := uuid |} in
      mret (Some (ResponseSuccess message returnData), None)
  end.

End select_device.

(** The driver that a call to the device is made on. *)
Definition deviceOf (e : event) : option XTDriver :=
  match e with
  | ClearImages_call driver _ | PushImage_call driver _ _ => Some driver
  | _ => None
  end.

Definition isSetup (e : event) : bool :=
  match e with
  | setupXTDriver_call _ _ _ => true
  | _ => false
  end.

(** ** [screenrecord] *)

Module screenrecord.

(** [x > 0] on a [float64] given by its 64 bits: the sign bit is clear, and
    [x] is neither zero nor a NaN (the positive infinity, [0x7FF0000000000000],
    is the greatest positive value). *)
Definition float64_positive (bits : Z) : bool :=
  (0 <? bits) && (bits <=? 0x7FF0000000000000).

(** [x, ok := v.(float64)]. *)
Definition assertFloat64 (v : option any) : Z * bool :=
  match v with
  | Some (AFloat64 bits) => (bits, true)
  | _ => (0, false)
  end.

(** The values of [option.ActionOption] that the handler builds;
    [WithContext] carries the context of the call. *)
Inductive ActionOption : Type :=
| WithDuration (duration : Z)
| WithScreenRecordPath (path : string)
| WithScreenRecordAudio (audio : bool)
| WithScreenRecordScrcpy (scrcpy : bool)
| WithContext.

(** The fields of [option.ActionOptions] that the handler reads. *)
Record ActionOptions : Type := {
  Duration : Z;
  ScreenRecordDuration : Z;
  ScreenRecordWithScrcpy : bool;
  ScreenRecordWithAudio : bool
}.

(** The return data of the tool. *)
Record ToolScreenRecord : Type := {
  VideoPath : string;
  ToolScreenRecord_Duration : Z;
  Method : string
}.

(** The calls that leave the handler, and the environment that answers
    them from the calls made so far. *)
Inductive event : Type :=
| setupXTDriver_call (arguments : gmap string any) (driver : XTDriver) (err : option error)
| ScreenRecord_call (driver : XTDriver) (opts : list ActionOption) (videoPath : string)
                    (err : option error).

Record Env : Type := {
  env_setupXTDriver : list event → gmap string any → XTDriver * option error;
  env_ScreenRecord : list event → XTDriver → list ActionOption → string * option error
}.

Definition M (A : Type) : Type := Env → list event → A * list event.

#[export] Instance M_ret : MRet M := λ A a _ h, (a, h).

#[export] Instance M_bind : MBind M :=
  λ A B f m env h, let '(a, h') := m env h in f a env h'.

Definition setupXTDriver (arguments : gmap string any) : M (XTDriver * option error) :=
  λ env h,
    let r := env_setupXTDriver env h arguments in
    (r, h ++ [setupXTDriver_call arguments r.1 r.2]).

Definition IDriver_ScreenRecord (driverExt : XTDriver) (opts : list ActionOption)
  : M (string * option error) :=
  λ env h,
    let r := env_ScreenRecord env h driverExt opts in
    (r, h ++ [ScreenRecord_call driverExt opts r.1 r.2]).

(** Parse options from arguments. *)
Definition recordOptions (arguments : gmap string any) : list ActionOption :=
  let opts : list ActionOption := [] in
  let opts :=
    let '(duration, ok) := assertFloat64 (arguments !! "duration") in
    if ok && float64_positive duration then opts ++ [WithDuration duration] else opts in
  let opts :=
    let '(path, ok) := assertString (arguments !! "screenRecordPath") in
    if ok && negb (String.eqb path "") then opts ++ [WithScreenRecordPath path] else opts in
  let opts :=
    let '(audio, ok) := assertBool (arguments !! "screenRecordWithAudio") in
    if ok && audio then opts ++ [WithScreenRecordAudio true] else opts in
  let opts :=
    let '(scrcpy, ok) := assertBool (arguments !! "screenRecordWithScrcpy") in
    if ok && scrcpy then opts ++ [WithScreenRecordScrcpy true] else opts in
  (* Add context to options for proper cancellation handling *)
  opts ++ [WithContext].

Section Implement.

(** [option.NewActionOptions] is not in the source files at hand: it is a
    parameter. *)
Variable NewActionOptions : list ActionOption → ActionOptions.

Definition Implement (request : gmap string any)
  : M (option (ToolResponse ToolScreenRecord) * option error) :=
  let arguments := request in
  '(driverExt, err) ← setupXTDriver arguments;
  match err with
  | Some err => mret (None, Some err)
  | None =>
      let opts := recordOptions arguments in
      (* Start screen recording *)
      '(videoPath, err) ← IDriver_ScreenRecord driverExt opts;
      match err with
      | Some err =>
          mret (Some (ResponseFailure ("Failed to record screen: " +:+ Error err)), None)
      | None =>
          (* Determine recording method and duration *)
          let options := NewActionOptions opts in
          let method := "adb" in
          let duration := Duration options in
          let duration :=
            if float64_positive (ScreenRecordDuration options)
            then ScreenRecordDuration options else duration in
          let method :=
            if ScreenRecordWithScrcpy options || ScreenRecordWithAudio options
            then "scrcpy" else method in
          let message :=
            "Screen recording completed successfully. Video saved to: " +:+ videoPath in
          let returnData := {|
            VideoPath := videoPath;
            ToolScreenRecord_Duration := duration;
            Method := method
          |} in
          mret (Some (ResponseSuccess message returnData), None)
      end
  end.

End Implement.

(** The place of an option in the list that the handler builds. *)
Definition rank (o : ActionOption) : nat :=
  match o with
  | WithDuration _ => 1
  | WithScreenRecordPath _ => 2
  | WithScreenRecordAudio _ => 3
  | WithScreenRecordScrcpy _ => 4
  | WithContext => 5
  end.

(** An option that says something: a positive duration, a path that is not
    empty, a flag that is set. *)
Definition effective (o : ActionOption) : bool :=
  match o with
  | WithDuration duration => float64_positive duration
  | WithScreenRecordPath path => negb (String.eqb path "")
  | WithScreenRecordAudio audio => audio
  | WithScreenRecordScrcpy scrcpy => scrcpy
  | WithContext => true
  end.

(** The options come in their places, none of them twice. *)
Fixpoint ranked (last : nat) (opts : list ActionOption) : bool :=
  match opts with
  | [] => true
  | o :: opts' => (last <? rank o)%nat && ranked (rank o) opts'
  end.

(** An argument that the handler heeds: a positive number for the
    duration, a path that is not empty, a flag that is set. *)
Definition heeded (key : string) (v : any) : bool :=
  match v with
  | AFloat64 bits => String.eqb key "duration" && float64_positive bits
  | AString s => String.eqb key "screenRecordPath" && negb (String.eqb s "")
  | ABool b =>
      (String.eqb key "screenRecordWithAudio" || String.eqb key "screenRecordWithScrcpy") && b
  | AMap _ => false
  end.

(** A recorder that fails, and one that records to a fixed file. *)
Definition broken : Env := {|
  env_setupXTDriver := λ _ _, (pixel, None);
  env_ScreenRecord := λ _ _ _, ("", Some (errorString "screenrecord: device busy"))
|}.

Definition recorder : Env := {|
  env_setupXTDriver := λ _ _, (pixel, None);
  env_ScreenRecord := λ _ _ _, ("/tmp/record.mp4", None)
|}.

End screenrecord.

(** ** The options that [push_image] declares *)

(** [mcp.PropertyOption] and [mcp.ToolOption], as far as the tools use
    them: a tool declares named arguments of a type, each with a
    description and possibly the list of its values. *)
Inductive PropertyOption : Type :=
| mcp_Enum (values : list string)
| mcp_Description (desc : string).

Inductive ToolOption : Type :=
| mcp_WithString (name : string) (opts : list PropertyOption)
| mcp_WithNumber (name : string) (opts : list PropertyOption)
| mcp_WithBoolean (name : string) (opts : list PropertyOption).

(** [ToolPushImage.Options]. *)
Definition ToolPushImage_Options : list ToolOption :=
  [ mcp_WithString "platform"
      [mcp_Enum ["android"; "ios"];
       mcp_Description "The platform type of device to push image to"];
    mcp_WithString "serial" [mcp_Description "The device serial number or UDID"];
    mcp_WithString "imagePath"
      [mcp_Description "Path to the local image file to push to the device"];
    mcp_WithString "imageUrl"
      [mcp_Description "URL of the image to download and push to the device"];
    mcp_WithBoolean "cleanup"
      [mcp_Description "Whether to delete the downloaded file after pushing it to the device"];
    mcp_WithBoolean "clearBefore"
      [mcp_Description "Whether to clear images before pushing (if applicable)"] ].

(** A declared argument and a value of its type; a string is one of the
    listed values when the declaration lists them. *)
Definition declares (o : ToolOption) (key : string) (v : any) : Prop :=
  match o, v with
  | mcp_WithString name opts, AString s =>
      name = key ∧ ∀ values, mcp_Enum values ∈ opts → s ∈ values
  | mcp_WithNumber name _, AFloat64 _ => name = key
  | mcp_WithBoolean name _, ABool _ => name = key
  | _, _ => False
  end.

(** A value that the reverse mapping stores for a field. *)
Definition storable (f : pushImageField) (v : any) : Prop :=
  match f, v with
  | (field_imageUrl | field_imagePath), AString s => s ≠ ""
  | (field_cleanup | field_clearBefore), ABool _ => True
  | _, _ => False
  end.

(** An action with a bare string and a custom path. *)
Definition urlAndCustomPath : MobileAction := {|
  Method := "push_image";
  Params := Some (AString "http://example.com/pic");
  Options := {| Custom := {[ "imagePath" := AString "/sdcard/cat.png" ]} |}
|}.

Definition isOpenOrClose (e : event) : bool :=
  match e with
  | os_Open_call _ _ | File_Close_call _ => true
  | _ => false
  end.

(** The extensions that the sniffer gives. *)
Definition imageExtensions : list string :=
  [".jpg"; ".png"; ".gif"; ".webp"; ".bmp"; ".tiff"; ".svg"].

(** The type that a signature stands for. *)
Definition sigType (sig : http.sniffSig) : string :=
  match sig with
  | http.htmlSig _ => "text/html; charset=utf-8"
  | http.maskedSig _ _ _ ct => ct
  | http.exactSig _ ct => ct
  | http.mp4Sig => "video/mp4"
  | http.textSig => "text/plain; charset=utf-8"
  end.

(** The extensions of the types that the content sniffing can detect. *)
Definition sniffedExtensions : list string := [".jpg"; ".png"; ".gif"; ".webp"; ".bmp"].



Definition isPush (e : event) : bool :=
  match e with
  | PushImage_call _ _ _ => true
  | _ => false
  end.

(** A request for a local image, with cleanup asked for. *)
Definition pushLocalWithCleanup : gmap string any :=
  {[ "imagePath" := AString "/sdcard/cat.png"; "cleanup" := ABool true ]}.

(** A request that names a URL and a local image. *)
Definition pushUrlAndPath : gmap string any :=
  {[ "imageUrl" := AString "http://example.com/pic"; "imagePath" := AString "/sdcard/cat.png" ]}.

(** An environment in which no download succeeds. *)
Definition offline : Env := {|
  env_Open := env_Open (calm []);
  env_Read := env_Read (calm []);
  env_Seek := env_Seek (calm []);
  env_Rename := env_Rename (calm []);
  env_Remove := env_Remove (calm []);
  env_DownloadFileByUrl := λ _ _, ("", Some (errorString "no route to host"));
  env_setupXTDriver := env_setupXTDriver (calm []);
  env_ClearImages := env_ClearImages (calm []);
  env_PushImage := env_PushImage (calm []);
  env_NewClient := env_NewClient (calm []);
  env_DeviceList := env_DeviceList (calm []);
  env_ListDevices := env_ListDevices (calm []);
  env_NewIOSDevice := env_NewIOSDevice (calm []);
  env_Pair := env_Pair (calm [])
|}.
(** A push that the device has accepted. *)
Definition isAcceptedPush (e : event) : bool :=
  match e with
  | PushImage_call _ _ None => true
  | _ => false
  end.

(** The UDID that a call of [NewIOSDevice] is made for. *)
Definition builtUdid (e : event) : option string :=
  match e with
  | NewIOSDevice_call udid _ _ => Some udid
  | _ => None
  end.

(** The serial numbers of the devices that were built and then paired, as
    the built devices give them. *)
Fixpoint pairedSerials (calls : list event) : list string :=
  match calls with
  | [] => []
  | NewIOSDevice_call _ device None :: calls' =>
      match calls' with
      | ios_Pair_call _ None :: _ =>
          SerialNumber (IOSDevice_Properties device) :: pairedSerials calls'
      | _ => pairedSerials calls'
      end
  | _ :: calls' => pairedSerials calls'
  end.

(** The calls of the loop over the iOS devices go device by device: the
    driver is built for the UDID of the device, and only when that has
    succeeded the same device is paired. *)
Fixpoint wellPaired (calls : list event) : bool :=
  match calls with
  | [] => true
  | NewIOSDevice_call _ _ (Some _) :: calls' => wellPaired calls'
  | NewIOSDevice_call udid _ None :: calls' =>
      match calls' with
      | ios_Pair_call dev _ :: calls'' =>
          String.eqb udid (SerialNumber (Properties dev)) && wellPaired calls''
      | _ => false
      end
  | _ => false
  end.

(** The calls to adb. *)
Definition isAdbCall (e : event) : bool :=
  match e with
  | gadb_NewClient_call _ | gadb_DeviceList_call _ _ => true
  | _ => false
  end.

(** An environment without adb, and with a device whose driver reports
    another serial number than the enumeration. *)
Definition noAdb : Env := {|
  env_Open := env_Open (calm []);
  env_Read := env_Read (calm []);
  env_Seek := env_Seek (calm []);
  env_Rename := env_Rename (calm []);
  env_Remove := env_Remove (calm []);
  env_DownloadFileByUrl := env_DownloadFileByUrl (calm []);
  env_setupXTDriver := env_setupXTDriver (calm []);
  env_ClearImages := env_ClearImages (calm []);
  env_PushImage := env_PushImage (calm []);
  env_NewClient := λ _, Some (errorString "adb server not running");
  env_DeviceList := env_DeviceList (calm []);
  env_ListDevices := env_ListDevices (calm []);
  env_NewIOSDevice := λ _ udid,
    ({| IOSDevice_Properties := {| SerialNumber := "serial-of-" +:+ udid |} |}, None);
  env_Pair := env_Pair (calm [])
|}.

(** * Properties *)

(** ** Examples *)

Example Clean_examples :
  map filepath.Clean ["abc//def"; "a/b/../../../c"; "/../a/./b/"; ""; "abc/def/../.."; "/tmp/x"; "./download.tmp.png"]
  = ["abc/def"; "../c"; "/a/b"; "."; "."; "/tmp/x"; "download.tmp.png"].
Proof. vm_compute. reflexivity. Qed.

Example Base_examples :
  map filepath.Base ["/tmp/photo.png"; "download.tmp"; ""; "///"; "a/b/"]
  = ["photo.png"; "download.tmp"; "."; "/"; "b"].
Proof. vm_compute. reflexivity. Qed.

Example Dir_examples :
  map filepath.Dir ["/tmp/photo.png"; "download.tmp"; ""; "/"; "a/b/"; "/x"]
  = ["/tmp"; "."; "."; "/"; "a/b"; "/"].
Proof. vm_compute. reflexivity. Qed.

Example DetectContentType_examples :
  map http.DetectContentType
      [ pngSignature; [0x89; 0x50; 0x4E; 0x47]; [0xFF; 0xD8; 0xFF; 0xE0];
        bytes_of_string "GIF89a"; bytes_of_string "BM"; bytes_of_string "  <html>";
        bytes_of_string "hello"; []; replicate 512 0; [0; 0; 1] ++ replicate 509 0;
        [0; 0; 0; 0x18] ++ bytes_of_string "ftypmp42" ++ replicate 12 0;
        pngSignature ++ replicate 504 0; [0x89; 0x50; 0x4E; 0x47] ++ replicate 508 0 ]
  = [ "image/png"; "text/plain; charset=utf-8"; "image/jpeg"; "image/gif"; "image/bmp";
      "text/html; charset=utf-8"; "text/plain; charset=utf-8"; "text/plain; charset=utf-8";
      "application/octet-stream"; "image/x-icon"; "video/mp4"; "image/png";
      "application/octet-stream" ].
Proof. vm_compute. reflexivity. Qed.

Example newPath_examples :
  map (λ filePath, newPath filePath ".png")
      ["photo.png"; "/tmp/photo.png"; "./photo.png"; "a/b/photo.png"; "download.tmp"]
  = ["photo.png.png"; "/tmp/photo.png.png"; "photo.png.png"; "a/b/photo.png.png";
     "download.tmp.png"].
Proof. vm_compute. reflexivity. Qed.

Example push_png_from_url :
  ToolPushImage_Implement
    {[ "imageUrl" := AString "http://example.com/pic"; "cleanup" := ABool true ]}
    (calm pngSignature) []
  = ((Some (ToolSuccess "Successfully downloaded and pushed image from http://example.com/pic to device"
              (PushImageData {| ImagePath := "/tmp/download.tmp.png";
                                ImageUrl := "http://example.com/pic"; Cleared := false |})),
      None),
     [ setupXTDriver_call {[ "imageUrl" := AString "http://example.com/pic"; "cleanup" := ABool true ]}
                          pixel None;
       DownloadFileByUrl_call "http://example.com/pic" "/tmp/download.tmp" None;
       os_Open_call "/tmp/download.tmp" None;
       File_Read_call "/tmp/download.tmp" pngSignature None;
       File_Seek_call "/tmp/download.tmp" None;
       os_Rename_call "/tmp/download.tmp" "/tmp/download.tmp.png" None;
       File_Close_call "/tmp/download.tmp";
       PushImage_call pixel "/tmp/download.tmp.png" None;
       os_Remove_call "/tmp/download.tmp.png" None ]).
Proof. vm_compute. reflexivity. Qed.

Example list_devices_example :
  (ToolListAvailableDevices_Implement ∅ (calm []) []).1
  = (Some (ToolSuccess "Found 2 available devices (1 Android, 1 iOS)"
             (ListAvailableDevicesData
                {| AndroidDevices := ["emulator-5554"]; IosDevices := ["00008030-A"];
                   TotalCount := 2; AndroidCount := 1; IosCount := 1 |})),
     None).
Proof. vm_compute. reflexivity. Qed.


(** ** The loops end within their bounds *)

Lemma copyElement_length rest :
  (List.length (filepath.copyElement rest).2 ≤ List.length rest)%nat.
Proof.
  induction rest as [|c rest IH]; simpl; [lia|].
  destruct (filepath.IsPathSeparator c); simpl; [lia|].
  destruct (filepath.copyElement rest) as [elem rest']. simpl in *. lia.
Qed.

Lemma copyElement_shorter c rest :
  filepath.IsPathSeparator c = false →
  (List.length (filepath.copyElement (c :: rest)).2 ≤ List.length rest)%nat.
Proof.
  intros Hc. simpl. rewrite Hc.
  pose proof (copyElement_length rest).
  destruct (filepath.copyElement rest) as [elem rest']. simpl in *. lia.
Qed.

(** [backtrack] stops by itself: with [w] iterations or more the result is
    the same ([Clean] gives it [len(out)], and [w < len(out)]). *)
Lemma backtrack_fuel out dotdot : ∀ fuel fuel' w,
  (w ≤ fuel)%nat → (w ≤ fuel')%nat →
  filepath.backtrack fuel out w dotdot = filepath.backtrack fuel' out w dotdot.
Proof.
  induction fuel as [|fuel IH]; intros fuel' w Hfuel Hfuel'.
  - assert (w = 0)%nat as -> by lia. destruct fuel'; reflexivity.
  - destruct fuel' as [|fuel'].
    + assert (w = 0)%nat as -> by lia. reflexivity.
    + cbn [filepath.backtrack].
      destruct ((dotdot <? w)%nat && _); [apply IH; lia|reflexivity].
Qed.

(** The iterations that [cleanLoop] is given are enough: with more of them
    the result is the same. *)
Lemma cleanLoop_fuel rooted : ∀ fuel fuel' rest out dotdot,
  (List.length rest ≤ fuel)%nat → (List.length rest ≤ fuel')%nat →
  filepath.cleanLoop fuel rooted rest out dotdot =
  filepath.cleanLoop fuel' rooted rest out dotdot.
Proof.
  induction fuel as [|fuel IH]; intros fuel' rest out dotdot Hfuel Hfuel'.
  - destruct rest; [|simpl in Hfuel; lia]. destruct fuel'; reflexivity.
  - destruct fuel' as [|fuel']; [destruct rest; [reflexivity|simpl in Hfuel'; lia]|].
    destruct rest as [|c rest1]; [reflexivity|].
    cbn [filepath.cleanLoop List.length] in *.
    destruct (filepath.IsPathSeparator c) eqn:Hc; [apply IH; lia|].
    destruct (filepath.isDot c && filepath.atEndOrSeparator rest1); [apply IH; lia|].
    destruct (filepath.isDot c && _).
    + assert (List.length (tl rest1) ≤ List.length rest1)%nat
        by (destruct rest1; simpl; lia).
      repeat match goal with
             | |- (if ?b then _ else _) = _ => destruct b
             end; apply IH; lia.
    + pose proof (copyElement_shorter c rest1 Hc) as Hlen.
      destruct (filepath.copyElement (c :: rest1)) as [elem rest']. simpl in Hlen.
      apply IH; lia.
Qed.


(** The loop of [mp4Sig.match] is given [len(data)] iterations and needs
    fewer: past [boxSize] it has stopped, and [boxSize] is at most
    [len(data)] where the loop is entered. *)
Lemma mp4Loop_fuel data boxSize : ∀ fuel fuel' st,
  boxSize - st ≤ 4 * Z.of_nat fuel → boxSize - st ≤ 4 * Z.of_nat fuel' →
  http.mp4Loop fuel data st boxSize = http.mp4Loop fuel' data st boxSize.
Proof.
  induction fuel as [|fuel IH]; intros fuel' st Hfuel Hfuel'.
  - destruct fuel' as [|fuel']; [reflexivity|]. cbn [http.mp4Loop].
    destruct (st <? boxSize) eqn:Hst; [apply Z.ltb_lt in Hst; lia|reflexivity].
  - destruct fuel' as [|fuel']; cbn [http.mp4Loop].
    + destruct (st <? boxSize) eqn:Hst; [apply Z.ltb_lt in Hst; lia|reflexivity].
    + destruct (st <? boxSize); [|reflexivity].
      destruct (st =? 12); [apply IH; lia|].
      destruct (bytes_HasPrefix _ _); [reflexivity|apply IH; lia].
Qed.

(** ** Runs in direct style *)

(** Unfold the monad and the calls of a computation. *)
Ltac unfold_calls :=
  cbv beta iota zeta delta
    [mbind M_bind mret M_ret defer call os_Open File_Read File_Seek File_Close
     os_Rename os_Remove DownloadFileByUrl setupXTDriver IDriver_ClearImages
     IDriver_PushImage gadb_NewClient client_DeviceList ios_ListDevices
     NewIOSDevice ios_Pair].

Ltac unfold_run := unfold_calls; cbv beta iota zeta delta [fst snd].

Lemma DetectAndRenameImageFile_run env h filePath :
  DetectAndRenameImageFile filePath env h =
  match env_Open env h filePath with
  | Some err =>
      (("", Some (fmt_Errorf "failed to open file for type detection: " (Error err))),
       h ++ [os_Open_call filePath (Some err)])
  | None =>
      let h1 := h ++ [os_Open_call filePath None] in
      let '(data, err) := env_Read env h1 filePath 512%nat in
      let h2 := h1 ++ [File_Read_call filePath (take 512 data) err] in
      if isReadFailure err then
        (("", Some (fmt_Errorf "failed to read file for type detection: "
                               (from_option Error "" err))),
         h2 ++ [File_Close_call filePath])
      else
        match env_Seek env h2 filePath with
        | Some err' =>
            (("", Some (fmt_Errorf "failed to reset file pointer: " (Error err'))),
             h2 ++ [File_Seek_call filePath (Some err'); File_Close_call filePath])
        | None =>
            let h3 := h2 ++ [File_Seek_call filePath None] in
            let contentType := http.DetectContentType (sniffBuffer data) in
            match imageExtension contentType with
            | None =>
                ((filePath, Some (fmt_Errorf "not a recognized image type: " contentType)),
                 h3 ++ [File_Close_call filePath])
            | Some extension =>
                if String.eqb filePath (newPath filePath extension) then
                  ((filePath, None), h3 ++ [File_Close_call filePath])
                else
                  match env_Rename env h3 filePath (newPath filePath extension) with
                  | Some err' =>
                      (("", Some (fmt_Errorf "failed to rename file: " (Error err'))),
                       h3 ++ [os_Rename_call filePath (newPath filePath extension) (Some err');
                              File_Close_call filePath])
                  | None =>
                      ((newPath filePath extension, None),
                       h3 ++ [os_Rename_call filePath (newPath filePath extension) None;
                              File_Close_call filePath])
                  end
            end
        end
  end.
Proof.
  unfold DetectAndRenameImageFile, sniffBuffer, newPath. unfold_run.
  destruct (env_Open env h filePath); [reflexivity|].
  rewrite length_replicate.
  destruct (env_Read _ _ _ _) as [data err].
  destruct (isReadFailure err); [reflexivity|].
  destruct (env_Seek _ _ _); [rewrite <- app_assoc; reflexivity|].
  destruct (imageExtension _); [|rewrite <- app_assoc; reflexivity].
  destruct (String.eqb _ _); [rewrite <- app_assoc; reflexivity|].
  destruct (env_Rename _ _ _ _); rewrite <- !app_assoc; reflexivity.
Qed.

Lemma ToolPushImage_Implement_run env h request :
  ToolPushImage_Implement request env h =
  let '(driverExt, err) := env_setupXTDriver env h request in
  let h1 := h ++ [setupXTDriver_call request driverExt err] in
  match err with
  | Some err => ((None, Some err), h1)
  | None =>
      let '(imagePath, hasPath) := assertString (request !! "imagePath") in
      let '(imageUrl, hasUrl) := assertString (request !! "imageUrl") in
      let cleanup := (assertBool (request !! "cleanup")).1 in
      let clearBefore := (assertBool (request !! "clearBefore")).1 in
      let usedUrl := hasUrl && negb (String.eqb imageUrl "") in
      if (negb hasPath || String.eqb imagePath "") && (negb hasUrl || String.eqb imageUrl "")
      then ((None, Some argumentError), h1)
      else if usedUrl then
        let '(downloadedPath, err) := env_DownloadFileByUrl env h1 imageUrl in
        let h2 := h1 ++ [DownloadFileByUrl_call imageUrl downloadedPath err] in
        match err with
        | Some err =>
            ((None, Some (fmt_Errorf "failed to download image from URL: " (Error err))), h2)
        | None =>
            let '((renamedPath, err), h3) := DetectAndRenameImageFile downloadedPath env h2 in
            pushToDevice driverExt imageUrl usedUrl cleanup clearBefore
              (match err with Some _ => downloadedPath | None => renamedPath end) true env h3
        end
      else pushToDevice driverExt imageUrl usedUrl cleanup clearBefore imagePath false env h1
  end.
Proof.
  unfold ToolPushImage_Implement, pushToDevice, cleanupDownloaded, argumentError. unfold_run.
  destruct (env_setupXTDriver env h request) as [driverExt [err|]]; [reflexivity|].
  destruct (assertString (request !! "imagePath")) as [imagePath hasPath].
  destruct (assertString (request !! "imageUrl")) as [imageUrl hasUrl].
  destruct (assertBool (request !! "cleanup")) as [cleanup ?].
  destruct (assertBool (request !! "clearBefore")) as [clearBefore ?].
  destruct (_ && _); [reflexivity|].
  destruct (hasUrl && _).
  - destruct (env_DownloadFileByUrl _ _ _) as [downloadedPath [err|]]; [reflexivity|].
    destruct (DetectAndRenameImageFile _ _ _) as [[renamedPath err] h3].
    destruct err, clearBefore; simpl;
      repeat match goal with
      | |- context [env_ClearImages ?a ?b ?c] => destruct (env_ClearImages a b c) eqn:?
      | |- context [env_PushImage ?a ?b ?c ?d] => destruct (env_PushImage a b c d) eqn:?
      end; simpl; destruct cleanup; reflexivity.
  - destruct clearBefore; simpl;
      repeat match goal with
      | |- context [env_ClearImages ?a ?b ?c] => destruct (env_ClearImages a b c) eqn:?
      | |- context [env_PushImage ?a ?b ?c ?d] => destruct (env_PushImage a b c d) eqn:?
      end; simpl; destruct cleanup; reflexivity.
Qed.

(** ** The path with the extension appended is never the path itself *)

Lemma backtrack_ge out dotdot : ∀ fuel w,
  (dotdot ≤ w)%nat → (dotdot ≤ filepath.backtrack fuel out w dotdot)%nat.
Proof.
  induction fuel as [|fuel IH]; intros w Hw; cbn [filepath.backtrack]; [exact Hw|].
  destruct (dotdot <? w)%nat eqn:Hlt; cbn [andb]; [|exact Hw].
  apply Nat.ltb_lt in Hlt. destruct (negb _); [apply IH; lia|exact Hw].
Qed.

Lemma copyElement_rest prefix e :
  ∃ prefix', (filepath.copyElement (prefix ++ filepath.Separator :: e)).2
             = prefix' ++ filepath.Separator :: e.
Proof.
  induction prefix as [|c prefix IH]; cbn [app filepath.copyElement].
  - exists []. reflexivity.
  - destruct (filepath.IsPathSeparator c).
    + exists (c :: prefix). reflexivity.
    + destruct IH as [prefix' IH].
      destruct (filepath.copyElement (prefix ++ filepath.Separator :: e)) as [elem rest].
      exists prefix'. exact IH.
Qed.

Lemma copyElement_whole e :
  Forall notSeparator e → filepath.copyElement e = (e, []).
Proof.
  induction 1 as [|c e Hc _ IH]; cbn [filepath.copyElement]; [reflexivity|].
  rewrite Hc, IH. reflexivity.
Qed.

(** The last element, once [Clean] has reached it. *)
Lemma cleanLoop_last rooted e out dotdot fuel :
  realElement e → cleanInvariant rooted out dotdot → (List.length e ≤ fuel)%nat →
  ∃ out1,
    filepath.cleanLoop fuel rooted e out dotdot = out1 ++ e
    ∧ (out1 = [] ∨ ∃ o, out1 = o ++ [filepath.Separator]).
Proof.
  intros (Hne & Hsep & Hdot & Hdotdot) Hinv Hfuel.
  destruct e as [|c e1]; [contradiction|].
  destruct fuel as [|fuel]; [simpl in Hfuel; lia|].
  cbn [filepath.cleanLoop].
  pose proof (Forall_inv Hsep) as Hc. unfold notSeparator in Hc. rewrite Hc.
  assert (Hone : (filepath.isDot c && filepath.atEndOrSeparator e1) = false).
  { destruct (filepath.isDot c) eqn:Hd; [|reflexivity]. cbn [andb].
    destruct e1 as [|d e2]; [|exact (Forall_inv (Forall_inv_tail Hsep))].
    exfalso. apply Hdot. apply Ascii.eqb_eq in Hd. subst c. reflexivity. }
  rewrite Hone.
  assert (Htwo : (filepath.isDot c &&
                  match e1 with
                  | d :: rest2 => filepath.isDot d && filepath.atEndOrSeparator rest2
                  | [] => false
                  end) = false).
  { destruct (filepath.isDot c) eqn:Hd; [|reflexivity]. cbn [andb].
    destruct e1 as [|d e2]; [reflexivity|].
    destruct (filepath.isDot d) eqn:Hd'; [|reflexivity]. cbn [andb].
    destruct e2 as [|d' e3];
      [|exact (Forall_inv (Forall_inv_tail (Forall_inv_tail Hsep)))].
    exfalso. apply Hdotdot. apply Ascii.eqb_eq in Hd, Hd'. subst c d. reflexivity. }
  rewrite Htwo, (copyElement_whole _ Hsep).
  assert (Hend : ∀ o, filepath.cleanLoop fuel rooted [] o dotdot = o)
    by (intros o; destruct fuel; reflexivity).
  rewrite Hend.
  destruct rooted.
  - destruct (Hinv eq_refl) as [[t ->] _]. cbn [andb negb orb].
    rewrite orb_false_r.
    destruct t as [|x t]; cbn [List.length Nat.eqb negb].
    + exists [filepath.Separator]. split; [reflexivity|]. right. exists []. reflexivity.
    + eexists. split; [reflexivity|]. right. eexists. reflexivity.
  - cbn [andb negb orb]. destruct out as [|x out]; cbn [List.length Nat.eqb negb].
    + exists []. split; [reflexivity|]. left. reflexivity.
    + eexists. split; [reflexivity|]. right. eexists. reflexivity.
Qed.

Lemma cleanInvariant_app rooted out dotdot more :
  cleanInvariant rooted out dotdot → cleanInvariant rooted (out ++ more) dotdot.
Proof.
  intros Hinv Hrooted. destruct (Hinv Hrooted) as [[t ->] Hdotdot].
  split; [eexists; reflexivity|exact Hdotdot].
Qed.

Lemma cleanInvariant_take rooted out dotdot w :
  cleanInvariant rooted out dotdot → (dotdot ≤ w)%nat →
  cleanInvariant rooted (take w out) dotdot.
Proof.
  intros Hinv Hw Hrooted. destruct (Hinv Hrooted) as [[t ->] Hdotdot].
  split; [|exact Hdotdot]. destruct w as [|w]; [lia|]. eexists. reflexivity.
Qed.

(** [Clean] copies a last element that is real as it is, at the start of
    the output or after a separator, whatever precedes it in the path. *)
Lemma cleanLoop_prefix rooted e :
  realElement e → ∀ fuel prefix out dotdot,
  cleanInvariant rooted out dotdot →
  (List.length (prefix ++ filepath.Separator :: e) ≤ fuel)%nat →
  ∃ out1,
    filepath.cleanLoop fuel rooted (prefix ++ filepath.Separator :: e) out dotdot = out1 ++ e
    ∧ (out1 = [] ∨ ∃ o, out1 = o ++ [filepath.Separator]).
Proof.
  intros He. induction fuel as [|fuel IH]; intros prefix out dotdot Hinv Hfuel.
  { rewrite length_app in Hfuel. simpl in Hfuel. lia. }
  destruct prefix as [|c prefix].
  { cbn [app filepath.cleanLoop].
    change (filepath.IsPathSeparator filepath.Separator) with true. cbv iota.
    apply cleanLoop_last; [exact He|exact Hinv|]. simpl in Hfuel. lia. }
  cbn [app filepath.cleanLoop]. cbn [app List.length] in Hfuel.
  destruct (filepath.IsPathSeparator c) eqn:Hc; [apply IH; [exact Hinv|lia]|].
  destruct (filepath.isDot c && filepath.atEndOrSeparator _); [apply IH; [exact Hinv|lia]|].
  destruct (filepath.isDot c && _) eqn:Hdots.
  - destruct prefix as [|d prefix].
    { apply andb_true_iff in Hdots as [_ Hdots]. cbn in Hdots. discriminate Hdots. }
    cbn [app tl]. cbn [app List.length] in Hfuel.
    destruct (dotdot <? List.length out)%nat eqn:Hlt.
    + apply Nat.ltb_lt in Hlt.
      apply IH; [|lia]. apply cleanInvariant_take; [exact Hinv|].
      apply backtrack_ge. lia.
    + destruct rooted; cbn [negb].
      * apply IH; [exact Hinv|lia].
      * apply IH; [intros Hrooted; discriminate Hrooted|lia].
  - destruct (copyElement_rest (c :: prefix) e) as [prefix' Hrest].
    pose proof (copyElement_shorter c (prefix ++ filepath.Separator :: e) Hc) as Hlen.
    cbn [app] in Hrest.
    destruct (filepath.copyElement (c :: prefix ++ filepath.Separator :: e)) as [elem rest].
    cbn [snd] in Hrest, Hlen. subst rest.
    apply IH; [|lia].
    apply cleanInvariant_app.
    destruct (_ || _); [apply cleanInvariant_app|]; exact Hinv.
Qed.

Lemma cleanChars_last prefix e :
  realElement e →
  ∃ out1,
    filepath.cleanChars (prefix ++ filepath.Separator :: e) = out1 ++ e
    ∧ (out1 = [] ∨ ∃ o, out1 = o ++ [filepath.Separator]).
Proof.
  intros He. unfold filepath.cleanChars.
  assert (Hnonempty : ∀ out1, match out1 ++ e with [] => ["."%char] | _ => out1 ++ e end = out1 ++ e).
  { intros out1. destruct He as [Hne _]. destruct out1, e; try contradiction; reflexivity. }
  destruct prefix as [|c prefix]; cbn [app].
  - change (filepath.IsPathSeparator filepath.Separator) with true. cbv iota zeta.
    destruct (cleanLoop_last true e [filepath.Separator] 1 (List.length e) He)
      as (out1 & -> & Hout1); [|lia|].
    { intros _. split; [exists []; reflexivity|lia]. }
    exists out1. rewrite Hnonempty. split; [reflexivity|exact Hout1].
  - cbv zeta. destruct (filepath.IsPathSeparator c) eqn:Hc.
    + destruct (cleanLoop_prefix true e He
                  (List.length (prefix ++ filepath.Separator :: e)) prefix
                  [filepath.Separator] 1) as (out1 & -> & Hout1); [|lia|].
      { intros _. split; [exists []; reflexivity|lia]. }
      exists out1. rewrite Hnonempty. split; [reflexivity|exact Hout1].
    + destruct (cleanLoop_prefix false e He
                  (List.length (c :: prefix ++ filepath.Separator :: e)) (c :: prefix)
                  [] 0) as (out1 & Hrun & Hout1); [|cbn [app]; lia|].
      { intros Hrooted. discriminate Hrooted. }
      cbn [app] in Hrun. rewrite Hrun.
      exists out1. rewrite Hnonempty. split; [reflexivity|exact Hout1].
Qed.

Lemma index_app_r (l e : list ascii) j :
  filepath.index (l ++ e) (List.length l + j) = filepath.index e j.
Proof. unfold filepath.index. apply app_nth2_plus. Qed.

Lemma index_notSeparator e j :
  Forall notSeparator e → (j < List.length e)%nat → notSeparator (filepath.index e j).
Proof.
  intros He Hj. rewrite Forall_forall in He. apply He.
  apply list_elem_of_In. unfold filepath.index. apply nth_In. exact Hj.
Qed.

Lemma lastSeparator_last out1 e :
  Forall notSeparator e → (out1 = [] ∨ ∃ o, out1 = o ++ [filepath.Separator]) →
  ∀ j, (j ≤ List.length e)%nat →
  filepath.lastSeparator (out1 ++ e) (List.length out1 + j) = List.length out1.
Proof.
  intros He Hout1. induction j as [|j IH]; intros Hj.
  - rewrite Nat.add_0_r. destruct Hout1 as [->|[o ->]]; [reflexivity|].
    rewrite length_app. cbn [List.length]. rewrite Nat.add_1_r.
    cbn [filepath.lastSeparator].
    replace (filepath.index ((o ++ [filepath.Separator]) ++ e) (List.length o))
      with filepath.Separator; [reflexivity|].
    unfold filepath.index. rewrite <- app_assoc.
    rewrite <- (Nat.add_0_r (List.length o)), app_nth2_plus. reflexivity.
  - rewrite Nat.add_succ_r. cbn [filepath.lastSeparator].
    rewrite index_app_r, (index_notSeparator e j He) by lia. apply IH. lia.
Qed.

Lemma stripTrailing_last out1 e :
  e ≠ [] → Forall notSeparator e →
  filepath.stripTrailing (out1 ++ e) (List.length (out1 ++ e)) = List.length (out1 ++ e).
Proof.
  intros Hne He. rewrite length_app.
  destruct (List.length e) as [|j] eqn:Hlen; [destruct e; [contradiction|discriminate Hlen]|].
  rewrite Nat.add_succ_r. cbn [filepath.stripTrailing].
  rewrite index_app_r, (index_notSeparator e j He) by lia. reflexivity.
Qed.

(** [Base] of a path that ends in a real element, at the start or after a
    separator, is that element. *)
Lemma Base_last out1 e :
  e ≠ [] → Forall notSeparator e →
  (out1 = [] ∨ ∃ o, out1 = o ++ [filepath.Separator]) →
  filepath.Base (string_of_list_ascii (out1 ++ e)) = string_of_list_ascii e.
Proof.
  intros Hne He Hout1. unfold filepath.Base.
  destruct (string_of_list_ascii (out1 ++ e)) as [|c s] eqn:Hs.
  { destruct out1, e; try contradiction; discriminate Hs. }
  rewrite <- Hs, list_ascii_of_string_of_list_ascii. cbv zeta.
  rewrite (stripTrailing_last _ _ Hne He), firstn_all.
  pose proof (lastSeparator_last out1 e He Hout1 (List.length e) (le_n _)) as Hlast.
  rewrite <- length_app in Hlast. rewrite Hlast, drop_app_length.
  destruct e; [contradiction|reflexivity].
Qed.

Lemma lastSeparator_le path : ∀ k, (filepath.lastSeparator path k ≤ k)%nat.
Proof.
  induction k as [|k IH]; cbn [filepath.lastSeparator]; [lia|].
  destruct (filepath.IsPathSeparator _); lia.
Qed.

Lemma lastSeparator_element path : ∀ k,
  (k ≤ List.length path)%nat →
  Forall notSeparator (drop (filepath.lastSeparator path k) (take k path)).
Proof.
  induction k as [|k IH]; intros Hk; cbn [filepath.lastSeparator].
  - constructor.
  - destruct (filepath.IsPathSeparator (filepath.index path k)) eqn:Hsep.
    + rewrite drop_ge; [constructor|]. rewrite length_take. lia.
    + destruct (lookup_lt_is_Some_2 path k ltac:(lia)) as [c Hc].
      rewrite (take_S_r _ _ _ Hc), drop_app_le
        by (rewrite length_take; pose proof (lastSeparator_le path k); lia).
      apply Forall_app. split; [apply IH; lia|].
      constructor; [|constructor].
      unfold filepath.index in Hsep. rewrite (nth_lookup_Some _ _ _ _ Hc) in Hsep. exact Hsep.
Qed.

(** [Base] yields the separator alone, or a name without separator. *)
Lemma Base_cases path :
  filepath.Base path = String filepath.Separator EmptyString
  ∨ ∃ b, filepath.Base path = string_of_list_ascii b ∧ b ≠ [] ∧ Forall notSeparator b.
Proof.
  unfold filepath.Base. destruct path as [|c s].
  { right. exists ["."%char]. repeat split; [discriminate|repeat constructor]. }
  cbv zeta. set (p := list_ascii_of_string (String c s)).
  set (q := take (filepath.stripTrailing p (List.length p)) p).
  pose proof (lastSeparator_element q (List.length q) (le_n _)) as Hq.
  rewrite firstn_all in Hq.
  destruct (drop (filepath.lastSeparator q (List.length q)) q) as [|x b] eqn:Hb.
  - left. reflexivity.
  - right. exists (x :: b). repeat split; [discriminate|exact Hq].
Qed.

Lemma list_ascii_of_append s t :
  list_ascii_of_string (s +:+ t) = list_ascii_of_string s ++ list_ascii_of_string t.
Proof. induction s as [|c s IH]; simpl; [reflexivity|]. f_equal. exact IH. Qed.

Lemma length_append s t :
  String.length (s +:+ t) = (String.length s + String.length t)%nat.
Proof.
  induction s as [|c s IH]; [reflexivity|].
  change (String c s +:+ t) with (String c (s +:+ t)).
  cbn [String.length]. rewrite IH. reflexivity.
Qed.

Lemma string_of_list_ascii_inj l l' :
  string_of_list_ascii l = string_of_list_ascii l' → l = l'.
Proof.
  intros H. apply (f_equal list_ascii_of_string) in H.
  rewrite !list_ascii_of_string_of_list_ascii in H. exact H.
Qed.

Lemma cleanChars_nonempty path : filepath.cleanChars path ≠ [].
Proof.
  unfold filepath.cleanChars. destruct path as [|c rest]; [discriminate|].
  cbv zeta. destruct (if filepath.IsPathSeparator c then _ else _); discriminate.
Qed.

Lemma Dir_nonempty path : filepath.Dir path ≠ "".
Proof.
  unfold filepath.Dir. cbv zeta. intros H.
  apply (string_of_list_ascii_inj _ []) in H. exact (cleanChars_nonempty _ H).
Qed.

(** [Base] of the path with the extension appended is the base with the
    extension appended, or the extension alone below the root. *)
Lemma Base_newPath filePath extension :
  realElement (list_ascii_of_string extension) →
  filepath.Base (newPath filePath extension) =
    if String.eqb (filepath.Base filePath) (String filepath.Separator EmptyString)
    then extension
    else filepath.Base filePath +:+ extension.
Proof.
  intros Hext. unfold newPath. cbn [filepath.Join strings.Join].
  destruct (String.eqb (filepath.Dir filePath) "") eqn:Hdir.
  { apply String.eqb_eq in Hdir. destruct (Dir_nonempty _ Hdir). }
  unfold filepath.Clean. rewrite !list_ascii_of_append.
  change (list_ascii_of_string (String filepath.Separator ""))
    with [filepath.Separator].
  set (dir := list_ascii_of_string (filepath.Dir filePath)).
  destruct (Base_cases filePath) as [Hbase|(b & Hbase & Hne & Hb)]; rewrite Hbase.
  - change (String.eqb _ _) with true. cbv iota.
    change (list_ascii_of_string (String filepath.Separator ""))
      with [filepath.Separator].
    change (dir ++ [filepath.Separator] ++ [filepath.Separator] ++ list_ascii_of_string extension)
      with (dir ++ [filepath.Separator] ++ filepath.Separator :: list_ascii_of_string extension).
    rewrite app_assoc.
    destruct (cleanChars_last (dir ++ [filepath.Separator]) _ Hext) as (out1 & -> & Hout1).
    destruct Hext as (Hne & Hsep & _).
    rewrite (Base_last _ _ Hne Hsep Hout1). apply string_of_list_ascii_of_string.
  - assert (Hnot : String.eqb (string_of_list_ascii b) (String filepath.Separator "") = false).
    { apply String.eqb_neq. intros H.
      apply (string_of_list_ascii_inj b [filepath.Separator]) in H. subst b.
      pose proof (Forall_inv Hb) as Hsep. discriminate Hsep. }
    rewrite Hnot, list_ascii_of_string_of_list_ascii.
    assert (Hreal : realElement (b ++ list_ascii_of_string extension)).
    { destruct Hext as (Hne' & Hsep & Hdot & Hdotdot). repeat split.
      - destruct b; [contradiction|discriminate].
      - apply Forall_app. split; assumption.
      - destruct b as [|x [|y b]]; [contradiction| |discriminate].
        destruct (list_ascii_of_string extension); [contradiction|discriminate].
      - destruct b as [|x [|y b]]; [contradiction| |].
        + intros H. injection H as _ H. contradiction.
        + destruct b; [|discriminate].
          destruct (list_ascii_of_string extension); [contradiction|discriminate]. }
    change (dir ++ [filepath.Separator] ++ b ++ list_ascii_of_string extension)
      with (dir ++ filepath.Separator :: (b ++ list_ascii_of_string extension)).
    destruct (cleanChars_last dir _ Hreal) as (out1 & -> & Hout1).
    destruct Hreal as (Hne' & Hsep & _).
    rewrite (Base_last _ _ Hne' Hsep Hout1).
    rewrite <- (string_of_list_ascii_of_string extension) at 2.
    generalize (list_ascii_of_string extension). intros l. clear.
    induction b as [|c b IH]; [reflexivity|].
    cbn [app string_of_list_ascii]. rewrite IH. reflexivity.
Qed.

(** The comparison [filePath == newFilePath] of the source never holds. *)
Lemma newPath_differs filePath extension :
  realElement (list_ascii_of_string extension) →
  String.eqb filePath (newPath filePath extension) = false.
Proof.
  intros Hext. apply String.eqb_neq. intros Heq.
  pose proof (Base_newPath filePath extension Hext) as Hbase. rewrite <- Heq in Hbase.
  destruct (String.eqb (filepath.Base filePath) _) eqn:Hroot.
  - apply String.eqb_eq in Hroot. rewrite Hroot in Hbase. subst extension.
    destruct Hext as (_ & Hsep & _). pose proof (Forall_inv Hsep) as H. discriminate H.
  - apply (f_equal String.length) in Hbase. rewrite length_append in Hbase.
    destruct Hext as (Hne & _). destruct extension; [contradiction|]. simpl in Hbase. lia.
Qed.

Lemma imageExtension_real contentType extension :
  imageExtension contentType = Some extension →
  realElement (list_ascii_of_string extension).
Proof.
  unfold imageExtension.
  repeat match goal with
         | |- (if ?c then _ else _) = _ → _ => destruct c
         end;
    intros H; first [discriminate H | injection H as <-];
    (repeat split; [discriminate|repeat constructor|discriminate|discriminate]).
Qed.

(** ** Substrings *)

Lemma HasPrefix_trans s p q :
  strings.HasPrefix s p = true → strings.HasPrefix p q = true → strings.HasPrefix s q = true.
Proof.
  revert s p. induction q as [|c q IH]; intros s p Hsp Hpq; [reflexivity|].
  destruct p as [|d p]; [discriminate|]. simpl in Hpq.
  destruct (Ascii.eqb c d) eqn:Hcd; [|discriminate].
  apply Ascii.eqb_eq in Hcd. subst d.
  destruct s as [|e s]; [discriminate|]. simpl in Hsp |- *.
  destruct (Ascii.eqb c e); [|discriminate]. eauto.
Qed.

Lemma Contains_weaken s p q :
  strings.HasPrefix p q = true → strings.Contains s p = true → strings.Contains s q = true.
Proof.
  intros Hpq. induction s as [|c s IH]; simpl; intros H.
  - rewrite orb_false_r in H |- *. eauto using HasPrefix_trans.
  - apply orb_true_iff in H as [H|H]; apply orb_true_iff; eauto using HasPrefix_trans.
Qed.

Lemma Contains_none s p q :
  strings.HasPrefix p q = true → strings.Contains s q = false → strings.Contains s p = false.
Proof.
  intros Hpq Hq. destruct (strings.Contains s p) eqn:Hp; [|reflexivity].
  rewrite (Contains_weaken _ _ _ Hpq Hp) in Hq. discriminate.
Qed.

Lemma imageExtension_not_image contentType :
  strings.Contains contentType "image/" = false → imageExtension contentType = None.
Proof.
  intros H. unfold imageExtension.
  rewrite !(Contains_none contentType _ "image/") by (reflexivity || exact H).
  reflexivity.
Qed.

Lemma imageExtension_image contentType :
  strings.Contains contentType "image/" = true → is_Some (imageExtension contentType).
Proof.
  intros H. unfold imageExtension. rewrite H.
  repeat match goal with
         | |- is_Some (if ?c then _ else _) => destruct c; [eexists; reflexivity|]
         end.
  eexists; reflexivity.
Qed.

Lemma callsOf_app {A : Type} (m : M A) env h calls :
  (m env h).2 = h ++ calls → callsOf m env h = calls.
Proof. intros H. unfold callsOf. rewrite H. apply drop_app_length. Qed.

(** ** The content sniffer *)

(** C5: a file whose sniffed content type does not contain [image/] keeps
    its path: the original path is returned together with the "not a
    recognized image type" error, and the file system is only read (open,
    read, seek, close), never renamed or removed. *)
Theorem not_an_image_keeps_path env h filePath data err :
  let h1 := h ++ [os_Open_call filePath None] in
  let h2 := h1 ++ [File_Read_call filePath (take 512 data) err] in
  let contentType := http.DetectContentType (sniffBuffer data) in
  env_Open env h filePath = None →
  env_Read env h1 filePath 512%nat = (data, err) →
  isReadFailure err = false →
  env_Seek env h2 filePath = None →
  strings.Contains contentType "image/" = false →
  DetectAndRenameImageFile filePath env h =
    ((filePath, Some (fmt_Errorf "not a recognized image type: " contentType)),
     h2 ++ [File_Seek_call filePath None; File_Close_call filePath])
  ∧ Forall (λ e, isFileMutation e = false)
           (callsOf (DetectAndRenameImageFile filePath) env h).
Proof.
  intros h1 h2 contentType Hopen Hread Hok Hseek Hct.
  subst h1 h2 contentType.
  assert (Hrun : DetectAndRenameImageFile filePath env h =
    ((filePath, Some (fmt_Errorf "not a recognized image type: "
                                 (http.DetectContentType (sniffBuffer data)))),
     h ++ [os_Open_call filePath None; File_Read_call filePath (take 512 data) err;
           File_Seek_call filePath None; File_Close_call filePath])).
  { rewrite DetectAndRenameImageFile_run, Hopen. cbv zeta. rewrite Hread, Hok, Hseek.
    rewrite (imageExtension_not_image _ Hct), <- !app_assoc. reflexivity. }
  split.
  - rewrite Hrun, <- !app_assoc. reflexivity.
  - rewrite (callsOf_app _ _ _ _ (f_equal snd Hrun)). repeat constructor.
Qed.

Lemma not_an_image_keeps_path_witness :
  DetectAndRenameImageFile "/tmp/notes.txt" (calm (bytes_of_string "hello")) [] =
    (("/tmp/notes.txt",
      Some (errorString "not a recognized image type: application/octet-stream")),
     [os_Open_call "/tmp/notes.txt" None;
      File_Read_call "/tmp/notes.txt" (bytes_of_string "hello") None;
      File_Seek_call "/tmp/notes.txt" None; File_Close_call "/tmp/notes.txt"])
  ∧ Forall (λ e, isFileMutation e = false)
           (callsOf (DetectAndRenameImageFile "/tmp/notes.txt")
                    (calm (bytes_of_string "hello")) []).
Proof.
  apply (not_an_image_keeps_path (calm (bytes_of_string "hello")) [] "/tmp/notes.txt"
           (bytes_of_string "hello") None); reflexivity.
Defined.

Lemma snoc_app {A : Type} (l : list A) x r : (l ++ [x]) ++ r = l ++ x :: r.
Proof. rewrite <- app_assoc. reflexivity. Qed.

(** Two errors whose messages start differently are different. *)
Ltac distinct_errors :=
  let H := fresh in
  intros H; simpl in H; unfold fmt_Errorf in H;
  first [discriminate H | injection H; intros; discriminate].

Lemma sniffBuffer_short data :
  (List.length data < 512)%nat →
  take 512 data = data ∧
  sniffBuffer data = data ++ replicate (512 - List.length data) 0.
Proof.
  intros Hlen. assert (Htake : take 512 data = data) by (apply take_ge; lia).
  split; [exact Htake|]. unfold sniffBuffer. rewrite Htake, drop_replicate. reflexivity.
Qed.

(** C8 (as amended): a short file is not an error, and it is classified
    with its padding.  When the read of a readable file yields fewer than
    512 bytes, with no error or with the end-of-stream error (the empty
    file), the function goes on to the seek, and the error it may return is
    never the read failure.  The number of bytes read is dropped: what is
    classified is the whole buffer of 512 bytes, that is the bytes read
    followed by the zeros the buffer was made with, and, the seek
    succeeding, the outcome is decided by the content type of that. *)
Theorem short_read_is_not_an_error env h filePath data err :
  let h1 := h ++ [os_Open_call filePath None] in
  let h2 := h1 ++ [File_Read_call filePath data err] in
  let contentType := http.DetectContentType (data ++ replicate (512 - List.length data) 0) in
  let run := DetectAndRenameImageFile filePath env h in
  env_Open env h filePath = None →
  env_Read env h1 filePath 512%nat = (data, err) →
  (List.length data < 512)%nat →
  err = None ∨ err = Some io_EOF →
  (∃ calls, run.2 = h2 ++ File_Seek_call filePath (env_Seek env h2 filePath) :: calls)
  ∧ (∀ msg, run.1.2 ≠ Some (fmt_Errorf "failed to read file for type detection: " msg))
  ∧ (env_Seek env h2 filePath = None →
     match imageExtension contentType with
     | None =>
         run.1 = (filePath, Some (fmt_Errorf "not a recognized image type: " contentType))
     | Some extension =>
         run.1 = (newPath filePath extension, None) ∨
         ∃ e, run.1 = ("", Some (fmt_Errorf "failed to rename file: " (Error e)))
     end).
Proof.
  intros h1 h2 contentType run Hopen Hread Hlen Herr.
  subst h1 h2 contentType run.
  destruct (sniffBuffer_short data Hlen) as [Htake Hbuf].
  assert (Hok : isReadFailure err = false) by (destruct Herr; subst; reflexivity).
  rewrite DetectAndRenameImageFile_run, Hopen. cbv zeta.
  rewrite Hread, Hok, Htake, Hbuf.
  destruct (env_Seek env _ filePath) as [e|] eqn:Hseek.
  { split; [eexists; reflexivity|].
    split; [|discriminate]. intros msg. distinct_errors. }
  destruct (imageExtension _) as [extension|] eqn:Hext.
  - rewrite (newPath_differs filePath extension (imageExtension_real _ _ Hext)).
    destruct (env_Rename env _ filePath _) as [e|] eqn:Hren;
      (split; [eexists; apply snoc_app|]);
      (split; [intros msg; distinct_errors|]);
      intros _; simpl; eauto.
  - split; [eexists; apply snoc_app|].
    split; [intros msg; distinct_errors|].
    intros _. reflexivity.
Qed.

Lemma short_read_is_not_an_error_witness :
  (∃ calls,
      (DetectAndRenameImageFile "/tmp/empty.bin" (calm []) []).2 =
        [os_Open_call "/tmp/empty.bin" None;
         File_Read_call "/tmp/empty.bin" [] (Some io_EOF);
         File_Seek_call "/tmp/empty.bin" None] ++ calls)
  ∧ (DetectAndRenameImageFile "/tmp/empty.bin" (calm []) []).1 =
      ("/tmp/empty.bin",
       Some (errorString "not a recognized image type: application/octet-stream")).
Proof.
  destruct (short_read_is_not_an_error (calm []) [] "/tmp/empty.bin" [] (Some io_EOF))
    as (Hcalls & _ & Hclass).
  - reflexivity.
  - reflexivity.
  - simpl. lia.
  - right. reflexivity.
  - split.
    + destruct Hcalls as [calls Hcalls]. exists calls. exact Hcalls.
    + exact (Hclass eq_refl).
Defined.

(** C8 (as stated) fails: the classification is not that of the bytes
    that were available.  A file that holds the three bytes [00 00 01] is
    not an image by these bytes, but in the buffer they are followed by a
    zero, which makes the four bytes of the icon signature: the file is
    taken for an image and renamed. *)
Lemma short_file_is_classified_with_its_padding :
  ¬ (∀ env h filePath data err,
        let h1 := h ++ [os_Open_call filePath None] in
        let h2 := h1 ++ [File_Read_call filePath data err] in
        let contentType := http.DetectContentType data in
        let run := DetectAndRenameImageFile filePath env h in
        env_Open env h filePath = None →
        env_Read env h1 filePath 512%nat = (data, err) →
        (List.length data < 512)%nat →
        err = None ∨ err = Some io_EOF →
        env_Seek env h2 filePath = None →
        match imageExtension contentType with
        | None =>
            run.1 = (filePath, Some (fmt_Errorf "not a recognized image type: " contentType))
        | Some extension =>
            run.1 = (newPath filePath extension, None) ∨
            ∃ e, run.1 = ("", Some (fmt_Errorf "failed to rename file: " (Error e)))
        end).
Proof.
  intros H.
  specialize (H (calm [0; 0; 1]) [] "/tmp/download.tmp" [0; 0; 1] None
                eq_refl eq_refl ltac:(simpl; lia) (or_introl eq_refl) eq_refl).
  vm_compute in H. discriminate H.
Qed.

Example short_file_padding_run :
  http.DetectContentType [0; 0; 1] = "application/octet-stream"
  ∧ http.DetectContentType ([0; 0; 1] ++ replicate 509 0) = "image/x-icon"
  ∧ DetectAndRenameImageFile "/tmp/download.tmp" (calm [0; 0; 1]) []
    = (("/tmp/download.tmp.jpg", None),
       [os_Open_call "/tmp/download.tmp" None;
        File_Read_call "/tmp/download.tmp" [0; 0; 1] None;
        File_Seek_call "/tmp/download.tmp" None;
        os_Rename_call "/tmp/download.tmp" "/tmp/download.tmp.jpg" None;
        File_Close_call "/tmp/download.tmp"]).
Proof. vm_compute. repeat split. Qed.

(** ** Sniffing a PNG file *)

Lemma firstMatch_skip sig sigs data ws :
  http.sigMatch sig data ws = "" →
  http.firstMatch (sig :: sigs) data ws = http.firstMatch sigs data ws.
Proof. intros H. simpl. rewrite H. reflexivity. Qed.

Lemma firstMatch_hit sig sigs data ws ct :
  http.sigMatch sig data ws = ct → String.eqb ct "" = false →
  http.firstMatch (sig :: sigs) data ws = ct.
Proof. intros H Hne. simpl. rewrite H, Hne. reflexivity. Qed.

(** A signature that the first byte of the data already rules out. *)
Ltac signature_fails :=
  cbn [http.sigMatch http.html http.exactBytes http.exactText];
  repeat match goal with
         | |- (if ?c then _ else _) = _ =>
             let H := fresh in destruct c eqn:H; [try reflexivity|try reflexivity]
         end;
  try reflexivity; try (exfalso; vm_compute in *; congruence).

Lemma firstMatch_png tail :
  http.firstMatch http.sniffSignatures (pngSignature ++ tail) 0 = "image/png".
Proof.
  unfold http.sniffSignatures, pngSignature.
  change ([0x89; 0x50; 0x4E; 0x47; 0x0D; 0x0A; 0x1A; 0x0A] ++ tail)
    with (0x89 :: 0x50 :: 0x4E :: 0x47 :: 0x0D :: 0x0A :: 0x1A :: 0x0A :: tail).
  repeat (rewrite firstMatch_skip by signature_fails).
  apply firstMatch_hit; reflexivity.
Qed.

Lemma DetectContentType_png tail :
  http.DetectContentType (pngSignature ++ tail) = "image/png".
Proof.
  unfold http.DetectContentType.
  destruct (http.sniffLen <? List.length (pngSignature ++ tail))%nat.
  - change (take http.sniffLen (pngSignature ++ tail))
      with (pngSignature ++ take 504 tail).
    apply firstMatch_png.
  - apply firstMatch_png.
Qed.

Lemma sniffBuffer_png rest :
  ∃ tail, sniffBuffer (pngSignature ++ rest) = pngSignature ++ tail.
Proof.
  unfold sniffBuffer.
  change (take 512 (pngSignature ++ rest)) with (pngSignature ++ take 504 rest).
  rewrite <- app_assoc. eexists. reflexivity.
Qed.

Lemma imageExtension_png rest :
  imageExtension (http.DetectContentType (sniffBuffer (pngSignature ++ rest))) = Some ".png".
Proof.
  destruct (sniffBuffer_png rest) as [tail ->]. rewrite DetectContentType_png. reflexivity.
Qed.

(** C4 (as amended): a file named [download.tmp] whose bytes start with the
    PNG signature [89 50 4E 47 0D 0A 1A 0A] is renamed to
    [download.tmp.png], in the same directory, and that path is returned.
    The extension is that of the first image type of the table that the
    detected content type contains, and [.jpg] for any other type that
    contains [image/]. *)
Theorem png_download_is_renamed env h rest err :
  let h1 := h ++ [os_Open_call "download.tmp" None] in
  let h2 := h1 ++ [File_Read_call "download.tmp" (take 512 (pngSignature ++ rest)) err] in
  let h3 := h2 ++ [File_Seek_call "download.tmp" None] in
  env_Open env h "download.tmp" = None →
  env_Read env h1 "download.tmp" 512%nat = (pngSignature ++ rest, err) →
  isReadFailure err = false →
  env_Seek env h2 "download.tmp" = None →
  env_Rename env h3 "download.tmp" "download.tmp.png" = None →
  DetectAndRenameImageFile "download.tmp" env h =
    (("download.tmp.png", None),
     h3 ++ [os_Rename_call "download.tmp" "download.tmp.png" None;
            File_Close_call "download.tmp"])
  ∧ ∀ contentType,
      imageExtension contentType =
        match find (λ entry, strings.Contains contentType entry.1) imageTypes with
        | Some entry => Some entry.2
        | None => if strings.Contains contentType "image/" then Some ".jpg" else None
        end.
Proof.
  intros h1 h2 h3 Hopen Hread Hok Hseek Hrename. subst h1 h2 h3. split.
  - rewrite DetectAndRenameImageFile_run, Hopen. cbv zeta.
    rewrite Hread, Hok, Hseek, imageExtension_png.
    change (newPath "download.tmp" ".png") with "download.tmp.png".
    rewrite Hrename. reflexivity.
  - intros contentType. unfold imageExtension, imageTypes. cbn [find fst snd].
    repeat match goal with
           | |- context [if strings.Contains contentType ?m then _ else _] =>
               destruct (strings.Contains contentType m); try reflexivity
           end.
Qed.

Lemma png_download_is_renamed_witness :
  DetectAndRenameImageFile "download.tmp" (calm (pngSignature ++ [0; 0; 0; 13])) [] =
    (("download.tmp.png", None),
     [os_Open_call "download.tmp" None;
      File_Read_call "download.tmp" (pngSignature ++ [0; 0; 0; 13]) None;
      File_Seek_call "download.tmp" None;
      os_Rename_call "download.tmp" "download.tmp.png" None;
      File_Close_call "download.tmp"]).
Proof.
  apply (png_download_is_renamed (calm (pngSignature ++ [0; 0; 0; 13])) [] [0; 0; 0; 13] None);
    reflexivity.
Defined.

(** C4 (as stated) fails: the four bytes [89 50 4E 47] alone are not the
    PNG signature; a file that holds just these is not renamed. *)
Lemma png_magic_prefix_is_not_enough :
  ¬ (∀ env h data err,
        env_Open env h "download.tmp" = None →
        env_Read env (h ++ [os_Open_call "download.tmp" None]) "download.tmp" 512%nat
          = (data, err) →
        isReadFailure err = false →
        take 4 data = [0x89; 0x50; 0x4E; 0x47] →
        (∀ h', env_Seek env h' "download.tmp" = None) →
        (∀ h', env_Rename env h' "download.tmp" "download.tmp.png" = None) →
        (DetectAndRenameImageFile "download.tmp" env h).1 = ("download.tmp.png", None)).
Proof.
  intros H.
  specialize (H (calm [0x89; 0x50; 0x4E; 0x47]) [] [0x89; 0x50; 0x4E; 0x47] None
                eq_refl eq_refl eq_refl eq_refl (λ _, eq_refl) (λ _, eq_refl)).
  vm_compute in H. discriminate H.
Qed.

Example png_magic_prefix_run :
  (DetectAndRenameImageFile "download.tmp" (calm [0x89; 0x50; 0x4E; 0x47]) []).1
  = ("download.tmp",
     Some (errorString "not a recognized image type: application/octet-stream")).
Proof. vm_compute. reflexivity. Qed.

(** ** A file that already has its extension *)

(** C1 (what the code does): an image file is renamed whatever its name.
    The path that the source compares with [filePath] is [filePath] with
    the extension appended, and the two are never equal; so for a file that
    already ends in the extension of its content, as for any other, the
    rename is called, and when it succeeds the path returned is the new
    one: [/tmp/photo.png] becomes [/tmp/photo.png.png]. *)
Theorem image_file_is_always_renamed env h filePath data err extension :
  let h1 := h ++ [os_Open_call filePath None] in
  let h2 := h1 ++ [File_Read_call filePath (take 512 data) err] in
  let h3 := h2 ++ [File_Seek_call filePath None] in
  let newFilePath := newPath filePath extension in
  let renamed := env_Rename env h3 filePath newFilePath in
  let run := DetectAndRenameImageFile filePath env h in
  env_Open env h filePath = None →
  env_Read env h1 filePath 512%nat = (data, err) →
  isReadFailure err = false →
  env_Seek env h2 filePath = None →
  imageExtension (http.DetectContentType (sniffBuffer data)) = Some extension →
  newFilePath ≠ filePath
  ∧ run.2 = h3 ++ [os_Rename_call filePath newFilePath renamed; File_Close_call filePath]
  ∧ (renamed = None → run.1 = (newFilePath, None)).
Proof.
  intros h1 h2 h3 newFilePath renamed run Hopen Hread Hok Hseek Hext.
  subst h1 h2 h3 newFilePath renamed run.
  pose proof (newPath_differs filePath extension (imageExtension_real _ _ Hext)) as Hguard.
  split; [apply String.eqb_neq; rewrite String.eqb_sym; exact Hguard|].
  rewrite DetectAndRenameImageFile_run, Hopen. cbv zeta.
  rewrite Hread, Hok, Hseek, Hext, Hguard.
  destruct (env_Rename env _ _ _); split; try reflexivity; discriminate.
Qed.

Lemma image_file_is_always_renamed_witness :
  let run := DetectAndRenameImageFile "/tmp/photo.png" (calm pngSignature) [] in
  "/tmp/photo.png.png" ≠ "/tmp/photo.png"
  ∧ run.2 = [os_Open_call "/tmp/photo.png" None;
             File_Read_call "/tmp/photo.png" pngSignature None;
             File_Seek_call "/tmp/photo.png" None;
             os_Rename_call "/tmp/photo.png" "/tmp/photo.png.png" None;
             File_Close_call "/tmp/photo.png"]
  ∧ run.1 = ("/tmp/photo.png.png", None).
Proof.
  destruct (image_file_is_always_renamed (calm pngSignature) [] "/tmp/photo.png"
              pngSignature None ".png" eq_refl eq_refl eq_refl eq_refl eq_refl)
    as (Hnew & Hcalls & Hpath).
  split; [exact Hnew|]. split; [exact Hcalls | exact (Hpath eq_refl)].
Defined.

(** ** [push_image]: arguments *)


Lemma unsetString_absent (m : gmap string any) key : m !! key = None → unsetString (m !! key).
Proof. intros -> s Hs. discriminate Hs. Qed.



(** ** [clear_image] *)

(** C7: on a resolved device whose [ClearImages] succeeds, [clear_image]
    answers with a success envelope whose data is the record with
    [Success = true]; that record has no other field. *)
Theorem clear_image_reports_success env h request driverExt :
  let h1 := h ++ [setupXTDriver_call request driverExt None] in
  env_setupXTDriver env h request = (driverExt, None) →
  env_ClearImages env h1 driverExt = None →
  ToolClearImage_Implement request env h =
    ((Some (ToolSuccess "Successfully cleared images from device"
              (ClearImageData {| Success := true |})), None),
     h1 ++ [ClearImages_call driverExt None])
  ∧ ∀ d : ToolClearImage, Success d = true → d = {| Success := true |}.
Proof.
  intros h1 Hsetup Hclear. subst h1. split.
  - unfold ToolClearImage_Implement. unfold_run. rewrite Hsetup, Hclear. reflexivity.
  - intros [s] Hs. simpl in Hs. rewrite Hs. reflexivity.
Qed.

Lemma clear_image_reports_success_witness :
  ToolClearImage_Implement ∅ (calm []) [] =
    ((Some (ToolSuccess "Successfully cleared images from device"
              (ClearImageData {| Success := true |})), None),
     [setupXTDriver_call ∅ pixel None; ClearImages_call pixel None]).
Proof.
  apply (clear_image_reports_success (calm []) [] ∅ pixel); reflexivity.
Defined.

(** ** [push_image]: reverse mapping *)

Lemma lookup_putString key v (arguments : gmap string any) key' :
  putString key v arguments !! key' =
  match v with
  | Some (AString s) =>
      if decide (key = key') then
        if String.eqb s "" then arguments !! key' else Some (AString s)
      else arguments !! key'
  | _ => arguments !! key'
  end.
Proof.
  unfold putString, assertString. destruct v as [[s| | |]|]; try reflexivity.
  simpl. destruct (String.eqb s ""); simpl.
  - destruct (decide _); reflexivity.
  - apply lookup_insert.
Qed.

Lemma lookup_putBool key v (arguments : gmap string any) key' :
  putBool key v arguments !! key' =
  match v with
  | Some (ABool b) => if decide (key = key') then Some (ABool b) else arguments !! key'
  | _ => arguments !! key'
  end.
Proof.
  unfold putBool, assertBool. destruct v as [[|b| |]|]; try reflexivity.
  apply lookup_insert.
Qed.

Lemma pushImageArguments_puts action :
  pushImageArguments action =
  let custom := Custom (Options action) in
  putBool "clearBefore" (custom !! "clearBefore")
    (putBool "cleanup" (custom !! "cleanup")
       (putString "imagePath" (custom !! "imagePath")
          (putString "imageUrl" (custom !! "imageUrl")
             (match Params action with
              | Some (AMap params) =>
                  putBool "clearBefore" (params !! "clearBefore")
                    (putBool "cleanup" (params !! "cleanup")
                       (putString "imagePath" (params !! "imagePath")
                          (putString "imageUrl" (params !! "imageUrl") ∅)))
              | v => putString "imageUrl" v ∅
              end)))).
Proof.
  unfold pushImageArguments. destruct (Params action) as [[s|b|z|m]|]; reflexivity.
Qed.

Lemma lookup_putString_ne key v (arguments : gmap string any) key' :
  key ≠ key' → putString key v arguments !! key' = arguments !! key'.
Proof.
  intros Hne. rewrite lookup_putString.
  destruct v as [[s| | |]|]; try reflexivity. destruct (decide _); [contradiction|reflexivity].
Qed.

Lemma lookup_putBool_ne key v (arguments : gmap string any) key' :
  key ≠ key' → putBool key v arguments !! key' = arguments !! key'.
Proof.
  intros Hne. rewrite lookup_putBool.
  destruct v as [[|b| |]|]; try reflexivity. destruct (decide _); [contradiction|reflexivity].
Qed.

Lemma lookup_putString_eq key v (arguments : gmap string any) :
  putString key v arguments !! key =
  match v with
  | Some (AString s) => if String.eqb s "" then arguments !! key else Some (AString s)
  | _ => arguments !! key
  end.
Proof.
  rewrite lookup_putString. destruct v as [[s| | |]|]; try reflexivity.
  destruct (decide _); [reflexivity|contradiction].
Qed.

Lemma lookup_putBool_eq key v (arguments : gmap string any) :
  putBool key v arguments !! key =
  match v with
  | Some (ABool b) => Some (ABool b)
  | _ => arguments !! key
  end.
Proof.
  rewrite lookup_putBool. destruct v as [[|b| |]|]; try reflexivity.
  destruct (decide _); [reflexivity|contradiction].
Qed.

(** Look a key up in a chain of [putString] and [putBool]. *)
Ltac lookup_puts :=
  repeat first
    [ rewrite lookup_putString_eq
    | rewrite lookup_putBool_eq
    | rewrite lookup_putString_ne by (first [discriminate | congruence])
    | rewrite lookup_putBool_ne by (first [discriminate | congruence])
    | rewrite lookup_empty ].

Ltac split_lookups :=
  repeat match goal with
         | |- context [match ?m !! ?k with _ => _ end] => destruct (m !! k) as [[]|]
         | |- context [String.eqb ?a ""] => destruct (String.eqb a "")
         end.

Lemma pushImageArguments_field action f :
  pushImageArguments action !! fieldName f = byPrecedence action f.
Proof.
  rewrite pushImageArguments_puts. cbv zeta.
  unfold byPrecedence, customOverride, nestedMapping, bareScalar, supplied.
  destruct f; cbn [fieldName]; destruct (Params action) as [[s|b|z|params]|];
    lookup_puts; split_lookups; reflexivity.
Qed.

Lemma pushImageArguments_other action key :
  (∀ f, key ≠ fieldName f) → pushImageArguments action !! key = None.
Proof.
  intros Hkey.
  pose proof (Hkey field_imageUrl). pose proof (Hkey field_imagePath).
  pose proof (Hkey field_cleanup). pose proof (Hkey field_clearBefore).
  cbn [fieldName] in *.
  rewrite pushImageArguments_puts. cbv zeta.
  destruct (Params action) as [[s|b|z|params]|]; lookup_puts; reflexivity.
Qed.

(** C3: the request that the reverse mapping of [push_image] builds carries,
    for each of [imageUrl], [imagePath], [cleanup] and [clearBefore], the
    value of the custom overrides when they supply one, whatever the
    parameters say; otherwise that of the nested mapping; otherwise the
    bare scalar (the URL).  Fields that come from different sources end up
    side by side in the one argument set, which has no other key. *)
Theorem reverse_mapping_precedence (CallToolRequest : Type)
    (BuildMCPCallToolRequest : string → gmap string any → MobileAction → CallToolRequest)
    (action : MobileAction) :
  ∃ arguments,
    ToolPushImage_ConvertActionToCallToolRequest CallToolRequest BuildMCPCallToolRequest action
      = (BuildMCPCallToolRequest ACTION_PushImage arguments action, None)
    ∧ (∀ f v, customOverride action f = Some v → arguments !! fieldName f = Some v)
    ∧ (∀ f, arguments !! fieldName f = byPrecedence action f)
    ∧ (∀ key, (∀ f, key ≠ fieldName f) → arguments !! key = None).
Proof.
  exists (pushImageArguments action). split; [reflexivity|]. split; [|split].
  - intros f v Hv. rewrite pushImageArguments_field. unfold byPrecedence. rewrite Hv. reflexivity.
  - apply pushImageArguments_field.
  - apply pushImageArguments_other.
Qed.

Lemma reverse_mapping_precedence_witness :
  ∃ arguments,
    ToolPushImage_ConvertActionToCallToolRequest (gmap string any) (λ _ arguments _, arguments)
      conflictingAction = (arguments, None)
    ∧ arguments !! "imageUrl" = Some (AString "http://custom/b.png")
    ∧ arguments !! "cleanup" = Some (ABool true).
Proof.
  destruct (reverse_mapping_precedence (gmap string any) (λ _ arguments _, arguments)
              conflictingAction) as (arguments & Hrequest & Hcustom & Hfield & _).
  exists arguments. split; [exact Hrequest|]. split.
  - apply (Hcustom field_imageUrl). reflexivity.
  - exact (Hfield field_cleanup).
Defined.

(** ** [list_available_devices] *)

Lemma iosSerials_calls env devices : ∀ serialList h,
  ∃ calls,
    (iosSerials devices serialList env h).2 = h ++ calls
    ∧ Forall (λ e, isPairingCall e = true) calls
    ∧ (List.length (iosSerials devices serialList env h).1
       ≤ List.length serialList + List.length devices)%nat.
Proof.
  induction devices as [|dev devices IH]; intros serialList h.
  - exists []. rewrite app_nil_r. simpl. repeat split; [constructor|lia].
  - cbn [iosSerials]. unfold_calls.
    destruct (env_NewIOSDevice env h _) as [device [e|]]; cbn [fst snd];
      [|destruct (env_Pair env _ dev) as [e|]; cbn [fst snd]];
      match goal with
      | |- context [iosSerials devices ?l env ?h'] =>
          destruct (IH l h') as (calls & Hcalls & Hall & Hlen)
      end;
      [ eexists (_ :: calls) | eexists (_ :: _ :: calls) | eexists (_ :: _ :: calls) ];
      (split; [rewrite Hcalls, !snoc_app; reflexivity|]);
      (split; [repeat (constructor; [reflexivity|]); exact Hall|]);
      rewrite ?length_app in Hlen; cbn [List.length] in *; lia.
Qed.

(** Take a membership in a list of calls apart. *)
Ltac invert_elem :=
  repeat match goal with
         | H : _ ∈ _ ++ _ |- _ => apply elem_of_app in H as [H|H]
         | H : _ ∈ _ :: _ |- _ => apply elem_of_cons in H as [H|H]
         | H : _ ∈ [] |- _ => apply elem_of_nil in H; contradiction
         | H : ?e ∈ ?l, HF : Forall _ ?l |- _ =>
             exfalso; rewrite Forall_forall in HF; specialize (HF _ H); discriminate HF
         | H : @eq event _ _ |- _ => first [discriminate H | injection H as ?; subst]
         end.

Ltac lookup_devices :=
  unfold deviceListAt;
  repeat first [ rewrite lookup_insert_eq
               | rewrite lookup_insert_ne by discriminate
               | rewrite lookup_empty ];
  cbn [default from_option id].

(** C9: [list_available_devices] always answers with a success envelope,
    never with a failure or a hard error.  In its data the Android and iOS
    counts are the lengths of the two lists and the total is their sum.
    Each list is at most as long as the enumeration it comes from, and it
    is empty when that enumeration failed. *)
Theorem list_available_devices_counts env h request :
  ∃ message data calls,
    ToolListAvailableDevices_Implement request env h =
      ((Some (ToolSuccess message (ListAvailableDevicesData data)), None), h ++ calls)
    ∧ AndroidCount data = len (AndroidDevices data)
    ∧ IosCount data = len (IosDevices data)
    ∧ TotalCount data = AndroidCount data + IosCount data
    ∧ (∀ devices err, gadb_DeviceList_call devices err ∈ calls →
         (List.length (AndroidDevices data) ≤ List.length devices)%nat
         ∧ (err ≠ None → AndroidDevices data = []))
    ∧ (∀ devices err, ios_ListDevices_call devices err ∈ calls →
         (List.length (IosDevices data) ≤ List.length devices)%nat
         ∧ (err ≠ None → IosDevices data = []))
    ∧ (∀ err, gadb_NewClient_call (Some err) ∈ calls → AndroidDevices data = []).
Proof.
  unfold ToolListAvailableDevices_Implement, NewMCPSuccessResponse. unfold_calls.
  destruct (env_NewClient env h) as [e|]; cbn [fst snd];
    [|destruct (env_DeviceList env _) as [androidDevices [e|]]; cbn [fst snd]];
    (destruct (env_ListDevices env _) as [iosDevices [e'|]]; cbn [fst snd];
     [|match goal with
       | |- context [iosSerials iosDevices [] env ?h'] =>
           destruct (iosSerials_calls env iosDevices [] h') as (calls & Hcalls & Hall & Hlen);
           destruct (iosSerials iosDevices [] env h') as [serialList h''];
           cbn [fst snd] in Hcalls, Hlen; subst h''
       end]);
    do 3 eexists;
    (split; [rewrite <- ?app_assoc; lookup_devices; reflexivity|]);
    cbn [AndroidDevices IosDevices AndroidCount IosCount TotalCount]; lookup_devices;
    repeat split; intros; invert_elem;
    unfold androidSerials; rewrite ?length_map; cbn [List.length] in *;
    try reflexivity; try lia; try congruence.
Qed.

Lemma list_available_devices_counts_witness :
  ∃ message data,
    (ToolListAvailableDevices_Implement ∅ (calm []) []).1 =
      (Some (ToolSuccess message (ListAvailableDevicesData data)), None)
    ∧ TotalCount data = AndroidCount data + IosCount data.
Proof.
  destruct (list_available_devices_counts (calm []) [] ∅)
    as (message & data & calls & Hrun & _ & _ & Htotal & _).
  exists message, data. rewrite Hrun. split; [reflexivity|exact Htotal].
Defined.

(** ** [push_image]: the calls of a run *)

Lemma filesAfter_app files calls calls' :
  filesAfter files (calls ++ calls') = filesAfter (filesAfter files calls) calls'.
Proof. apply foldl_app. Qed.

Lemma DetectAndRenameImageFile_calls env h filePath :
  ∃ calls,
    (DetectAndRenameImageFile filePath env h).2 = h ++ calls
    ∧ Forall (λ e, isSnifferCall e = true) calls
    ∧ ∀ files, filePath ∈ files →
        filesAfter files calls =
          match (DetectAndRenameImageFile filePath env h).1 with
          | (newFilePath, None) => files ∖ {[filePath]} ∪ {[newFilePath]}
          | (_, Some _) => files
          end.
Proof.
  rewrite DetectAndRenameImageFile_run.
  destruct (env_Open env h filePath) as [e|].
  { eexists. split; [reflexivity|]. split; [repeat constructor|]. reflexivity. }
  cbv zeta. destruct (env_Read env _ filePath _) as [data err].
  destruct (isReadFailure err).
  { eexists. split; [rewrite <- !app_assoc; reflexivity|].
    split; [repeat constructor|]. reflexivity. }
  destruct (env_Seek env _ filePath) as [e|].
  { eexists. split; [rewrite <- !app_assoc; reflexivity|].
    split; [repeat constructor|]. reflexivity. }
  destruct (imageExtension _) as [extension|].
  2:{ eexists. split; [rewrite <- !app_assoc; reflexivity|].
      split; [repeat constructor|]. reflexivity. }
  destruct (String.eqb filePath _).
  { eexists. split; [rewrite <- !app_assoc; reflexivity|].
    split; [repeat constructor|]. intros files Hin. cbn.
    apply set_eq. intros x. rewrite elem_of_union, elem_of_difference, elem_of_singleton.
    destruct (decide (x = filePath)) as [->|]; tauto. }
  destruct (env_Rename env _ filePath _) as [e|].
  { eexists. split; [rewrite <- !app_assoc; reflexivity|].
    split; [repeat constructor|]. reflexivity. }
  eexists. split; [rewrite <- !app_assoc; reflexivity|].
  split; [repeat constructor|]. intros files Hin. cbn.
  rewrite decide_True by exact Hin. reflexivity.
Qed.

(** What the device part of a run calls and answers. *)
Lemma pushToDevice_calls driverExt imageUrl usedUrl cleanup clearBefore imagePath
    downloadedFile env h :
  ∃ cleared pushed removed message,
    pushToDevice driverExt imageUrl usedUrl cleanup clearBefore imagePath
                 downloadedFile env h =
      (match pushed with
       | Some err => (None, Some err)
       | None =>
           (Some (ToolSuccess message
                    (PushImageData
                       {| ImagePath := imagePath;
                          ImageUrl := if usedUrl then imageUrl else "";
                          Cleared := if clearBefore then bool_decide (cleared = None)
                                     else false |})),
            None)
       end,
       h ++ (if clearBefore then [ClearImages_call driverExt cleared] else [])
         ++ [PushImage_call driverExt imagePath pushed]
         ++ (if downloadedFile && cleanup then [os_Remove_call imagePath removed] else [])).
Proof.
  unfold pushToDevice. cbv zeta.
  exists (env_ClearImages env h driverExt).
  destruct clearBefore; cbn [app];
    match goal with
    | |- context [env_PushImage env ?h' driverExt imagePath] =>
        exists (env_PushImage env h' driverExt imagePath);
        exists (env_Remove env (h' ++ [PushImage_call driverExt imagePath
                                         (env_PushImage env h' driverExt imagePath)])
                           imagePath);
        destruct (env_PushImage env h' driverExt imagePath)
    end;
    eexists; destruct (downloadedFile && cleanup).
  all: try (rewrite <- ?app_assoc, ?app_nil_r; reflexivity).
  all: exact "".
Qed.

Lemma assertString_true v s : assertString v = (s, true) → v = Some (AString s).
Proof.
  destruct v as [[s'| | |]|]; simpl; intros H; first [discriminate H | injection H as ->].
  reflexivity.
Qed.

(** How a run of the handler may go: it stops after the setup (the setup
    failed, or no image was named), it stops after a failed download, or it
    reaches the device, having possibly fetched the image first. *)
Lemma ToolPushImage_Implement_calls env h request :
  let cleanup := (assertBool (request !! "cleanup")).1 in
  let clearBefore := (assertBool (request !! "clearBefore")).1 in
  ∃ driverExt setupErr,
    let setupCall := setupXTDriver_call request driverExt setupErr in
    (∃ e, ToolPushImage_Implement request env h = ((None, Some e), h ++ [setupCall]))
    ∨ (∃ url path e e',
         ToolPushImage_Implement request env h =
           ((None, Some e'), h ++ [setupCall; DownloadFileByUrl_call url path (Some e)]))
    ∨ (∃ fetch downloaded imagePath imageUrl usedUrl,
         (fetch = [] ∧ downloaded = false
          ∨ ∃ url path sniff,
              fetch = DownloadFileByUrl_call url path None :: sniff ∧ downloaded = true
              ∧ request !! "imageUrl" = Some (AString url) ∧ url ≠ ""
              ∧ Forall (λ e, isSnifferCall e = true) sniff
              ∧ filesAfter {[path]} sniff = {[imagePath]})
         ∧ ToolPushImage_Implement request env h =
             pushToDevice driverExt imageUrl usedUrl cleanup clearBefore imagePath downloaded
                          env (h ++ setupCall :: fetch)).
Proof.
  intros cleanup clearBefore. subst cleanup clearBefore.
  rewrite ToolPushImage_Implement_run.
  destruct (env_setupXTDriver env h request) as [driverExt setupErr].
  exists driverExt, setupErr. cbv zeta.
  destruct setupErr as [e|]; [left; eexists; reflexivity|].
  destruct (assertString (request !! "imagePath")) as [imagePath hasPath].
  destruct (assertString (request !! "imageUrl")) as [imageUrl hasUrl] eqn:Hurl.
  destruct (_ && _); [left; eexists; reflexivity|].
  destruct (hasUrl && _) eqn:Hused.
  - apply andb_true_iff in Hused as [-> Hused].
    apply assertString_true in Hurl. apply negb_true_iff, String.eqb_neq in Hused.
    destruct (env_DownloadFileByUrl env _ imageUrl) as [downloadedPath [e|]].
    { right; left. do 4 eexists. rewrite <- app_assoc. reflexivity. }
    destruct (DetectAndRenameImageFile_calls env
                ((h ++ [setupXTDriver_call request driverExt None]) ++
                 [DownloadFileByUrl_call imageUrl downloadedPath None]) downloadedPath)
      as (sniff & Hcalls & Hall & Hfiles).
    specialize (Hfiles {[downloadedPath]} ltac:(apply elem_of_singleton; reflexivity)).
    destruct (DetectAndRenameImageFile downloadedPath env _) as [[renamedPath err] h3].
    cbn [fst snd] in Hcalls, Hfiles. subst h3.
    right; right.
    exists (DownloadFileByUrl_call imageUrl downloadedPath None :: sniff), true.
    exists (match err with Some _ => downloadedPath | None => renamedPath end), imageUrl, true.
    split.
    + right. exists imageUrl, downloadedPath, sniff.
      repeat split; [exact Hurl|exact Hused|exact Hall|].
      rewrite Hfiles. destruct err; [reflexivity|].
      apply set_eq. intros x.
      rewrite elem_of_union, elem_of_difference, !elem_of_singleton. tauto.
    + rewrite <- !app_assoc. reflexivity.
  - right; right. exists [], false, imagePath, imageUrl, false.
    split; [left; split; reflexivity|reflexivity].
Qed.

Lemma sniffer_never_removes calls :
  Forall (λ e, isSnifferCall e = true) calls → Forall (λ e, isRemove e = false) calls.
Proof.
  intros H. eapply Forall_impl; [exact H|].
  intros e He. destruct e; try discriminate He; reflexivity.
Qed.

(** C6: a run downloads only the URL that [imageUrl] names, and the
    downloaded file, at the path that the sniffer left it at, is the one
    file of the run on disk when the push is made.  With [cleanup=true]
    the call that follows the push is the removal of that file, whether the
    push failed or succeeded, and once the removal has succeeded no file of
    the run is left; with [cleanup] false or absent nothing is removed and
    the file is still there at the end, again in both cases. *)
Theorem downloaded_file_cleanup env h request url path :
  let run := ToolPushImage_Implement request env h in
  let calls := callsOf (ToolPushImage_Implement request) env h in
  let cleanup := (assertBool (request !! "cleanup")).1 in
  DownloadFileByUrl_call url path None ∈ calls →
  request !! "imageUrl" = Some (AString url) ∧ url ≠ ""
  ∧ ∃ before driverExt imagePath pushed,
    filesAfter ∅ before = {[imagePath]}
    ∧ Forall (λ e, isRemove e = false) before
    ∧ match pushed with
      | Some e => run.1 = (None, Some e)
      | None =>
          ∃ message data,
            run.1 = (Some (ToolSuccess message (PushImageData data)), None)
            ∧ ImagePath data = imagePath
      end
    ∧ if cleanup then
        ∃ removed,
          calls = before ++ [PushImage_call driverExt imagePath pushed;
                             os_Remove_call imagePath removed]
          ∧ (removed = None → filesAfter ∅ calls = ∅)
      else
        calls = before ++ [PushImage_call driverExt imagePath pushed]
        ∧ filesAfter ∅ calls = {[imagePath]}.
Proof.
  intros run calls cleanup Hin. subst run calls cleanup.
  destruct (ToolPushImage_Implement_calls env h request)
    as (driverExt & setupErr & [(e & Hrun)|[(url' & path' & e & e' & Hrun)|Hrun]]).
  1, 2: rewrite (callsOf_app _ _ _ _ (f_equal snd Hrun)) in Hin; invert_elem.
  destruct Hrun as (fetch & downloaded & imagePath & imageUrl & usedUrl & Hfetch & Hrun).
  cbv zeta in Hrun.
  destruct (pushToDevice_calls driverExt imageUrl usedUrl (assertBool (request !! "cleanup")).1
              (assertBool (request !! "clearBefore")).1 imagePath downloaded env
              (h ++ setupXTDriver_call request driverExt setupErr :: fetch))
    as (cleared & pushed & removed & message & Hdev).
  rewrite Hdev in Hrun. clear Hdev. rewrite <- app_assoc in Hrun.
  rewrite (callsOf_app _ _ _ _ (f_equal snd Hrun)) in *. rewrite Hrun. cbn [fst snd].
  destruct Hfetch
    as [[-> ->]|(url' & path' & sniff & -> & -> & Hurl & Hused & Hsniff & Hfiles)].
  { exfalso. cbn [andb app] in Hin.
    destruct (assertBool (request !! "clearBefore")).1; invert_elem. }
  assert (Hsame : url' = url).
  { cbn [andb] in Hin.
    destruct (assertBool (request !! "clearBefore")).1, (assertBool (request !! "cleanup")).1;
      invert_elem; reflexivity. }
  subst url'. clear Hin. cbn [andb]. split; [exact Hurl|]. split; [exact Hused|].
  set (clearCalls := if (assertBool (request !! "clearBefore")).1
                     then [ClearImages_call driverExt cleared] else []).
  assert (Hclear : ∀ files, filesAfter files clearCalls = files)
    by (intros files; subst clearCalls; destruct (assertBool _).1; reflexivity).
  assert (Hbefore :
    filesAfter ∅ ((setupXTDriver_call request driverExt setupErr
                     :: DownloadFileByUrl_call url path' None :: sniff) ++ clearCalls)
    = {[imagePath]}).
  { rewrite filesAfter_app, Hclear. cbn [filesAfter foldl fileStep].
    rewrite union_empty_l_L. exact Hfiles. }
  exists ((setupXTDriver_call request driverExt setupErr
             :: DownloadFileByUrl_call url path' None :: sniff) ++ clearCalls),
         driverExt, imagePath, pushed.
  split; [exact Hbefore|]. split.
  { apply Forall_app. split.
    - repeat (constructor; [reflexivity|]). apply sniffer_never_removes, Hsniff.
    - subst clearCalls. destruct (assertBool _).1; repeat constructor. }
  split; [destruct pushed; [reflexivity|eexists _, _; split; reflexivity]|].
  destruct (assertBool (request !! "cleanup")).1.
  - exists removed. split; [rewrite <- !app_assoc; reflexivity|].
    intros ->. rewrite (app_assoc _ clearCalls), filesAfter_app, Hbefore.
    cbn. apply set_eq. intros x.
    rewrite elem_of_difference, elem_of_singleton, elem_of_empty. tauto.
  - split; [rewrite <- !app_assoc, app_nil_r; reflexivity|].
    rewrite (app_assoc _ clearCalls), filesAfter_app, Hbefore. reflexivity.
Qed.

Lemma downloaded_file_cleanup_witness :
  let env := scripted pngSignature None None (Some deviceOffline) None in
  ∃ before driverExt imagePath pushed removed,
    callsOf (ToolPushImage_Implement pushFromUrl) env [] =
      before ++ [PushImage_call driverExt imagePath pushed; os_Remove_call imagePath removed]
    ∧ filesAfter ∅ before = {[imagePath]}
    ∧ (removed = None → filesAfter ∅ (callsOf (ToolPushImage_Implement pushFromUrl) env []) = ∅).
Proof.
  intros env.
  destruct (downloaded_file_cleanup env [] pushFromUrl "http://example.com/pic" "/tmp/download.tmp")
    as (_ & _ & before & driverExt & imagePath & pushed & Hfiles & _ & _ & Hcleanup).
  - apply list_elem_of_lookup. exists 1%nat. vm_compute. reflexivity.
  - change (assertBool (pushFromUrl !! "cleanup")).1 with true in Hcleanup.
    destruct Hcleanup as (removed & Hcalls & Hgone).
    exists before, driverExt, imagePath, pushed, removed. repeat split; assumption.
Defined.

(** The download is among the calls of a run whenever the request names a
    URL, the device is resolved and the download succeeds. *)
Lemma download_is_called env h request driverExt url path :
  env_setupXTDriver env h request = (driverExt, None) →
  request !! "imageUrl" = Some (AString url) → url ≠ "" →
  env_DownloadFileByUrl env (h ++ [setupXTDriver_call request driverExt None]) url
    = (path, None) →
  DownloadFileByUrl_call url path None ∈ callsOf (ToolPushImage_Implement request) env h.
Proof.
  intros Hsetup Hurl Hne Hdownload. apply String.eqb_neq in Hne.
  assert (Hrun : ∃ calls, (ToolPushImage_Implement request env h).2 =
                   h ++ setupXTDriver_call request driverExt None
                     :: DownloadFileByUrl_call url path None :: calls).
  { rewrite ToolPushImage_Implement_run, Hsetup. cbv zeta. rewrite Hurl.
    destruct (assertString (request !! "imagePath")) as [imagePath hasPath].
    cbn [assertString]. rewrite Hne. cbn [negb orb andb]. rewrite andb_false_r, Hdownload.
    destruct (DetectAndRenameImageFile_calls env
                ((h ++ [setupXTDriver_call request driverExt None]) ++
                 [DownloadFileByUrl_call url path None]) path) as (sniff & Hsniff & _).
    destruct (DetectAndRenameImageFile path env _) as [[renamedPath err] h3].
    cbn [snd] in Hsniff. subst h3.
    match goal with
    | |- context [pushToDevice ?d ?u ?b ?c ?cb ?p ?dl env ?h'] =>
        destruct (pushToDevice_calls d u b c cb p dl env h')
          as (cleared & pushed & removed & message & ->)
    end.
    eexists. cbn [snd]. rewrite <- !app_assoc. reflexivity. }
  destruct Hrun as [calls Hrun]. rewrite (callsOf_app _ _ _ _ Hrun).
  apply list_elem_of_further, list_elem_of_here.
Qed.

Lemma assertBool_true v : (assertBool v).1 = true → v = Some (ABool true).
Proof. destruct v as [[|[]| |]|]; simpl; intros H; first [discriminate H | reflexivity]. Qed.

(** C10: a [ClearImages] call that fails does not stop [push_image].  Such
    a call is made only when [clearBefore] is true; the next call is the
    push of the image to the same device, and a success response then
    reports [Cleared = false].  A response reports [Cleared = true] only
    when [clearBefore] is true and the [ClearImages] call has succeeded. *)
Theorem failed_clear_does_not_abort env h request :
  let run := ToolPushImage_Implement request env h in
  let calls := callsOf (ToolPushImage_Implement request) env h in
  (∀ driverExt e,
     ClearImages_call driverExt (Some e) ∈ calls →
     request !! "clearBefore" = Some (ABool true)
     ∧ (∃ before imagePath pushed after,
          calls = before ++ [ClearImages_call driverExt (Some e);
                             PushImage_call driverExt imagePath pushed] ++ after)
     ∧ (∀ message data,
          run.1.1 = Some (ToolSuccess message (PushImageData data)) → Cleared data = false))
  ∧ (∀ message data,
       run.1.1 = Some (ToolSuccess message (PushImageData data)) →
       Cleared data = true →
       request !! "clearBefore" = Some (ABool true)
       ∧ ∃ driverExt, ClearImages_call driverExt None ∈ calls).
Proof.
  intros run calls. subst run calls.
  destruct (ToolPushImage_Implement_calls env h request)
    as (driverExt & setupErr & [(e & Hrun)|[(url' & path' & e & e' & Hrun)|Hrun]]).
  1, 2: rewrite (callsOf_app _ _ _ _ (f_equal snd Hrun)), Hrun;
    (split; [intros d e0 Hin; invert_elem|intros message data Hresp; discriminate Hresp]).
  destruct Hrun as (fetch & downloaded & imagePath & imageUrl & usedUrl & Hfetch & Hrun).
  cbv zeta in Hrun.
  destruct (pushToDevice_calls driverExt imageUrl usedUrl (assertBool (request !! "cleanup")).1
              (assertBool (request !! "clearBefore")).1 imagePath downloaded env
              (h ++ setupXTDriver_call request driverExt setupErr :: fetch))
    as (cleared & pushed & removed & message & Hdev).
  rewrite Hdev in Hrun. clear Hdev. rewrite <- app_assoc in Hrun.
  rewrite (callsOf_app _ _ _ _ (f_equal snd Hrun)), Hrun. cbn [fst snd].
  assert (Hfetched : ∀ d c, ClearImages_call d c ∉ setupXTDriver_call request driverExt setupErr :: fetch).
  { intros d c Hin.
    destruct Hfetch as [[-> _]|(url' & path' & sniff & -> & _ & _ & _ & Hsniff & _)];
      invert_elem. }
  destruct (assertBool (request !! "clearBefore")).1 eqn:HclearBefore.
  - apply assertBool_true in HclearBefore. split.
    + intros d e Hin. apply elem_of_app in Hin as [Hin|Hin]; [destruct (Hfetched _ _ Hin)|].
      apply elem_of_cons in Hin as [Hin|Hin].
      2:{ exfalso. destruct (downloaded && _); invert_elem. }
      injection Hin as -> <-. split; [exact HclearBefore|]. split.
      * eexists _, imagePath, pushed, _. reflexivity.
      * intros message' data Hresp. destruct pushed; [discriminate Hresp|].
        injection Hresp as _ <-. reflexivity.
    + intros message' data Hresp Hcleared. split; [exact HclearBefore|].
      destruct pushed; [discriminate Hresp|]. injection Hresp as _ <-.
      cbn [Cleared] in Hcleared. apply bool_decide_eq_true in Hcleared. subst cleared.
      exists driverExt. apply elem_of_app. right. apply list_elem_of_here.
  - split.
    + intros d e Hin. exfalso.
      apply elem_of_app in Hin as [Hin|Hin]; [destruct (Hfetched _ _ Hin)|].
      destruct (downloaded && _); invert_elem.
    + intros message' data Hresp Hcleared. destruct pushed; [discriminate Hresp|].
      injection Hresp as _ <-. discriminate Hcleared.
Qed.

(** With [clearBefore=true] no image is pushed before the clearing has
    been tried on the same device. *)
Lemma clear_is_called_before_push env h request driverExt imagePath pushed :
  request !! "clearBefore" = Some (ABool true) →
  PushImage_call driverExt imagePath pushed ∈ callsOf (ToolPushImage_Implement request) env h →
  ∃ before cleared after,
    callsOf (ToolPushImage_Implement request) env h =
      before ++ [ClearImages_call driverExt cleared;
                 PushImage_call driverExt imagePath pushed] ++ after.
Proof.
  intros HclearBefore Hin.
  destruct (ToolPushImage_Implement_calls env h request)
    as (d & setupErr & [(e & Hrun)|[(url' & path' & e & e' & Hrun)|Hrun]]).
  1, 2: rewrite (callsOf_app _ _ _ _ (f_equal snd Hrun)) in Hin; invert_elem.
  destruct Hrun as (fetch & downloaded & path & imageUrl & usedUrl & Hfetch & Hrun).
  cbv zeta in Hrun. rewrite HclearBefore in Hrun. cbn [assertBool fst] in Hrun.
  destruct (pushToDevice_calls d imageUrl usedUrl (assertBool (request !! "cleanup")).1
              true path downloaded env (h ++ setupXTDriver_call request d setupErr :: fetch))
    as (cleared & pushed' & removed & message & Hdev).
  rewrite Hdev in Hrun. clear Hdev. rewrite <- app_assoc in Hrun.
  rewrite (callsOf_app _ _ _ _ (f_equal snd Hrun)) in *.
  assert (Hsame : d = driverExt ∧ path = imagePath ∧ pushed' = pushed).
  { destruct Hfetch as [[-> _]|(url' & path' & sniff & -> & _ & _ & _ & Hsniff & _)];
      destruct (downloaded && _); invert_elem; repeat split; reflexivity. }
  destruct Hsame as (-> & -> & ->).
  eexists _, cleared, _. reflexivity.
Qed.

Lemma failed_clear_does_not_abort_witness :
  let env := scripted [] None (Some deviceOffline) None None in
  (∃ before imagePath pushed after,
      callsOf (ToolPushImage_Implement pushAfterClear) env [] =
        before ++ [ClearImages_call pixel (Some deviceOffline);
                   PushImage_call pixel imagePath pushed] ++ after)
  ∧ (ToolPushImage_Implement pushAfterClear env []).1 =
      (Some (ToolSuccess "Successfully pushed image to device"
               (PushImageData {| ImagePath := "/sdcard/cat.png"; ImageUrl := "";
                                 Cleared := false |})), None).
Proof.
  intros env.
  destruct (failed_clear_does_not_abort env [] pushAfterClear) as [Hfailed _].
  destruct (Hfailed pixel deviceOffline) as (_ & Hnext & Hcleared).
  - apply list_elem_of_lookup. exists 1%nat. vm_compute. reflexivity.
  - split; [exact Hnext|]. vm_compute. reflexivity.
Defined.

(** ** More on the content sniffer *)

(** X1: the file is closed if and only if it was opened.  When [os.Open]
    fails, the failed open is the only call and its error is returned,
    wrapped, with an empty path; when it succeeds, the last call of the run
    is the one [Close] of the file, whatever happens in between. *)
Theorem file_is_closed_iff_opened env h filePath :
  match env_Open env h filePath with
  | Some e =>
      DetectAndRenameImageFile filePath env h =
        (("", Some (fmt_Errorf "failed to open file for type detection: " (Error e))),
         h ++ [os_Open_call filePath (Some e)])
  | None =>
      ∃ calls,
        (DetectAndRenameImageFile filePath env h).2 =
          h ++ os_Open_call filePath None :: calls ++ [File_Close_call filePath]
        ∧ Forall (λ e, isOpenOrClose e = false) calls
  end.
Proof.
  rewrite DetectAndRenameImageFile_run.
  destruct (env_Open env h filePath) as [e|]; [reflexivity|].
  cbv zeta. destruct (env_Read env _ filePath _) as [data err].
  set (read := File_Read_call filePath (take 512 data) err).
  destruct (isReadFailure err).
  { exists [read]. split; [rewrite <- !app_assoc; reflexivity|repeat constructor]. }
  destruct (env_Seek env _ filePath) as [e|].
  { exists [read; File_Seek_call filePath (Some e)].
    split; [rewrite <- !app_assoc; reflexivity|repeat constructor]. }
  destruct (imageExtension _) as [extension|].
  2:{ exists [read; File_Seek_call filePath None].
      split; [rewrite <- !app_assoc; reflexivity|repeat constructor]. }
  destruct (String.eqb filePath _).
  { exists [read; File_Seek_call filePath None].
    split; [rewrite <- !app_assoc; reflexivity|repeat constructor]. }
  destruct (env_Rename env _ filePath _) as [e|]; eexists [read; File_Seek_call filePath None; _];
    (split; [rewrite <- !app_assoc; reflexivity|repeat constructor]).
Qed.




(** X3: a content type is refused exactly when it does not contain
    [image/]; every other one gets one of the seven extensions. *)
Theorem refused_iff_not_an_image contentType :
  (imageExtension contentType = None ↔ strings.Contains contentType "image/" = false)
  ∧ (∀ extension, imageExtension contentType = Some extension → extension ∈ imageExtensions).
Proof.
  split; [split|].
  - intros Hnone. destruct (strings.Contains contentType "image/") eqn:Himage; [|reflexivity].
    destruct (imageExtension_image _ Himage) as [extension Hsome]. congruence.
  - apply imageExtension_not_image.
  - unfold imageExtension, imageExtensions. intros extension.
    repeat match goal with
           | |- (if ?c then _ else _) = _ → _ => destruct c
           end;
      intros H; first [discriminate H | injection H as <-]; set_solver.
Qed.

(** X4: the new name is the old name with the extension appended.  For
    every path and every extension that the sniffer gives, the last element
    of the new path is the last element of the path followed by the
    extension (below the root, where [Base] is the separator, it is the
    extension alone). *)
Theorem new_name_appends_extension filePath contentType extension :
  imageExtension contentType = Some extension →
  filepath.Base (newPath filePath extension) =
    if String.eqb (filepath.Base filePath) "/" then extension
    else filepath.Base filePath +:+ extension.
Proof.
  intros Hext. apply Base_newPath. exact (imageExtension_real _ _ Hext).
Qed.

Lemma new_name_appends_extension_witness :
  filepath.Base (newPath "/var/tmp/../cache//shot" ".webp") = "shot.webp".
Proof.
  exact (new_name_appends_extension "/var/tmp/../cache//shot" "image/webp" ".webp" eq_refl).
Defined.

Lemma sigMatch_range sig data ws :
  http.sigMatch sig data ws = "" ∨ http.sigMatch sig data ws = sigType sig.
Proof.
  destruct sig; cbn [http.sigMatch sigType];
    repeat match goal with
           | |- context [if ?c then _ else _] => destruct c
           end; auto.
Qed.

Lemma firstMatch_range sigs data ws :
  http.firstMatch sigs data ws ∈ "application/octet-stream" :: map sigType sigs.
Proof.
  induction sigs as [|sig sigs IH]; cbn [http.firstMatch map].
  - apply list_elem_of_here.
  - destruct (sigMatch_range sig data ws) as [->| ->].
    + cbn [String.eqb negb]. apply elem_of_cons in IH as [IH|IH].
      * rewrite IH. apply list_elem_of_here.
      * do 2 apply list_elem_of_further. exact IH.
    + destruct (negb _).
      * apply list_elem_of_further, list_elem_of_here.
      * apply elem_of_cons in IH as [IH|IH].
        -- rewrite IH. apply list_elem_of_here.
        -- do 2 apply list_elem_of_further. exact IH.
Qed.

Lemma DetectContentType_range buffer :
  http.DetectContentType buffer ∈ "application/octet-stream" :: map sigType http.sniffSignatures.
Proof. unfold http.DetectContentType. apply firstMatch_range. Qed.

Lemma sniffed_extension contentType extension :
  contentType ∈ "application/octet-stream" :: map sigType http.sniffSignatures →
  imageExtension contentType = Some extension →
  extension ∈ sniffedExtensions.
Proof.
  intros Hrange Hextension.
  assert (Hcheck :
    forallb (λ ct, match imageExtension ct with
                   | Some e => bool_decide (e ∈ sniffedExtensions)
                   | None => true
                   end)
            ("application/octet-stream" :: map sigType http.sniffSignatures) = true)
    by (vm_compute; reflexivity).
  rewrite forallb_forall in Hcheck. apply list_elem_of_In in Hrange.
  specialize (Hcheck contentType Hrange). rewrite Hextension in Hcheck.
  apply bool_decide_eq_true in Hcheck. exact Hcheck.
Qed.

(** X5: of the seven extensions only five are ever given to a file.  The
    content sniffing detects no TIFF and no SVG type, so whatever the bytes
    of the buffer, the extension is [.jpg], [.png], [.gif], [.webp] or
    [.bmp], or the content is refused. *)
Theorem tiff_and_svg_are_never_sniffed buffer extension :
  imageExtension (http.DetectContentType buffer) = Some extension →
  extension ∈ sniffedExtensions.
Proof. apply sniffed_extension, DetectContentType_range. Qed.

Lemma tiff_and_svg_are_never_sniffed_witness :
  ".gif" ∈ sniffedExtensions.
Proof.
  exact (tiff_and_svg_are_never_sniffed (bytes_of_string "GIF89a" ++ replicate 506 0) ".gif"
           eq_refl).
Defined.

(** ** More on [push_image] *)

Lemma unsetString_assert v : unsetString v → (assertString v).2 && negb (String.eqb (assertString v).1 "") = false.
Proof.
  intros H. destruct v as [[s| | |]|]; try reflexivity.
  rewrite (H s eq_refl). reflexivity.
Qed.

(** X6: a local image is pushed as it is.  When the request names a local
    path and no URL, the run makes no call to the network or to the local
    file system, also with [cleanup=true]: after the setup it clears the
    gallery if asked to, and pushes the path of the request.  The answer is
    the error of the push, or a response with that path and no URL. *)
Theorem local_image_is_pushed_as_it_is env h request driverExt path :
  env_setupXTDriver env h request = (driverExt, None) →
  request !! "imagePath" = Some (AString path) → path ≠ "" →
  unsetString (request !! "imageUrl") →
  let clearBefore := (assertBool (request !! "clearBefore")).1 in
  ∃ cleared pushed,
    callsOf (ToolPushImage_Implement request) env h =
      setupXTDriver_call request driverExt None
        :: (if clearBefore then [ClearImages_call driverExt cleared] else [])
        ++ [PushImage_call driverExt path pushed]
    ∧ (ToolPushImage_Implement request env h).1 =
        match pushed with
        | Some err => (None, Some err)
        | None =>
            let cleared := clearBefore && bool_decide (cleared = None) in
            (Some (ToolSuccess
                     (if cleared
                      then "Successfully pushed image to device (images cleared before pushing)"
                      else "Successfully pushed image to device")
                     (PushImageData {| ImagePath := path; ImageUrl := ""; Cleared := cleared |})),
             None)
        end.
Proof.
  intros Hsetup Hpath Hne Hurl clearBefore. subst clearBefore. apply String.eqb_neq in Hne.
  pose proof (unsetString_assert _ Hurl) as Hunused.
  unfold callsOf. rewrite ToolPushImage_Implement_run, Hsetup. cbv zeta.
  rewrite Hpath. cbn [assertString].
  destruct (assertString (request !! "imageUrl")) as [imageUrl hasUrl].
  cbn [fst snd] in Hunused. rewrite Hne, Hunused. cbn [negb orb andb].
  unfold pushToDevice. cbv zeta. cbn [andb].
  set (h1 := h ++ [setupXTDriver_call request driverExt None]).
  exists (env_ClearImages env h1 driverExt).
  destruct (assertBool (request !! "clearBefore")).1.
  - exists (env_PushImage env (h1 ++ [ClearImages_call driverExt (env_ClearImages env h1 driverExt)])
                          driverExt path).
    destruct (env_PushImage env _ driverExt path) as [e|];
      cbn [fst snd andb]; subst h1; rewrite <- !app_assoc, drop_app_length;
      (split; [reflexivity|]); [reflexivity|].
    destruct (bool_decide _); reflexivity.
  - exists (env_PushImage env h1 driverExt path).
    destruct (env_PushImage env _ driverExt path) as [e|];
      cbn [fst snd andb]; subst h1; rewrite <- !app_assoc, drop_app_length;
      (split; reflexivity).
Qed.

Lemma local_image_is_pushed_as_it_is_witness :
  ∃ cleared pushed : option error,
    callsOf (ToolPushImage_Implement pushLocalWithCleanup) (calm []) [] =
      setupXTDriver_call pushLocalWithCleanup pixel None
        :: [] ++ [PushImage_call pixel "/sdcard/cat.png" pushed]
    ∧ (ToolPushImage_Implement pushLocalWithCleanup (calm []) []).1 =
        match pushed with
        | Some err => (None, Some err)
        | None =>
            let cleared := false && bool_decide (cleared = None) in
            (Some (ToolSuccess
                     (if cleared
                      then "Successfully pushed image to device (images cleared before pushing)"
                      else "Successfully pushed image to device")
                     (PushImageData {| ImagePath := "/sdcard/cat.png"; ImageUrl := "";
                                       Cleared := cleared |})),
             None)
        end.
Proof.
  apply (local_image_is_pushed_as_it_is (calm []) [] pushLocalWithCleanup pixel "/sdcard/cat.png").
  - reflexivity.
  - reflexivity.
  - discriminate.
  - apply unsetString_absent. reflexivity.
Defined.

(** X7: a failed download stops the run, and there is no falling back on
    [imagePath].  When the request names a URL and the download fails, the
    handler returns the error of the download, wrapped, and no response;
    the setup and the download are its only calls, so the device is not
    touched, also when the request names a local image as well. *)
Theorem failed_download_stops_the_run env h request driverExt url path e :
  let setup := setupXTDriver_call request driverExt None in
  env_setupXTDriver env h request = (driverExt, None) →
  request !! "imageUrl" = Some (AString url) → url ≠ "" →
  env_DownloadFileByUrl env (h ++ [setup]) url = (path, Some e) →
  ToolPushImage_Implement request env h =
    ((None, Some (errorString ("failed to download image from URL: " +:+ Error e))),
     h ++ [setup; DownloadFileByUrl_call url path (Some e)]).
Proof.
  intros setup Hsetup Hurl Hne Hdownload. subst setup. apply String.eqb_neq in Hne.
  rewrite ToolPushImage_Implement_run, Hsetup. cbv zeta. rewrite Hurl.
  destruct (assertString (request !! "imagePath")) as [imagePath hasPath].
  cbn [assertString]. rewrite Hne. cbn [negb orb andb]. rewrite andb_false_r, Hdownload.
  rewrite <- app_assoc. reflexivity.
Qed.

Lemma failed_download_stops_the_run_witness :
  ToolPushImage_Implement pushUrlAndPath offline [] =
    ((None, Some (errorString "failed to download image from URL: no route to host")),
     [setupXTDriver_call pushUrlAndPath pixel None;
      DownloadFileByUrl_call "http://example.com/pic" "" (Some (errorString "no route to host"))]).
Proof.
  apply (failed_download_stops_the_run offline [] pushUrlAndPath pixel "http://example.com/pic" ""
           (errorString "no route to host")).
  - reflexivity.
  - reflexivity.
  - discriminate.
  - reflexivity.
Defined.

Lemma sniffer_never_pushes calls :
  Forall (λ e, isSnifferCall e = true) calls → Forall (λ e, isPush e = false) calls.
Proof.
  intros H. eapply Forall_impl; [exact H|].
  intros e He. destruct e; try discriminate He; reflexivity.
Qed.

Lemma isAcceptedPush_isPush calls :
  Forall (λ e, isPush e = false) calls → Forall (λ e, isAcceptedPush e = false) calls.
Proof.
  intros H. eapply Forall_impl; [exact H|].
  intros e He. destruct e; try discriminate He; reflexivity.
Qed.

(** All the calls of a run, with its answer. *)
Lemma ToolPushImage_Implement_shape env h request :
  ∃ driverExt setupErr fetch device,
    callsOf (ToolPushImage_Implement request) env h =
      setupXTDriver_call request driverExt setupErr :: fetch ++ device
    ∧ Forall (λ e, isPush e = false) fetch
    ∧ ((device = [] ∧ ∃ e, (ToolPushImage_Implement request env h).1 = (None, Some e))
       ∨ ∃ clearCalls imagePath pushed removeCalls,
           device = clearCalls ++ PushImage_call driverExt imagePath pushed :: removeCalls
           ∧ Forall (λ e, isPush e = false) clearCalls
           ∧ Forall (λ e, isPush e = false) removeCalls
           ∧ match pushed with
             | Some e => (ToolPushImage_Implement request env h).1 = (None, Some e)
             | None =>
                 ∃ message data,
                   (ToolPushImage_Implement request env h).1 =
                     (Some (ToolSuccess message (PushImageData data)), None)
                   ∧ ImagePath data = imagePath
             end).
Proof.
  destruct (ToolPushImage_Implement_calls env h request)
    as (driverExt & setupErr & [(e & Hrun)|[(url & path & e & e' & Hrun)|Hrun]]).
  - exists driverExt, setupErr, [], [].
    rewrite (callsOf_app _ _ _ _ (f_equal snd Hrun)), Hrun.
    split; [reflexivity|]. split; [constructor|]. left. split; [reflexivity|]. exists e. reflexivity.
  - exists driverExt, setupErr, [DownloadFileByUrl_call url path (Some e)], [].
    rewrite (callsOf_app _ _ _ _ (f_equal snd Hrun)), Hrun.
    split; [reflexivity|]. split; [repeat constructor|]. left. split; [reflexivity|].
    exists e'. reflexivity.
  - destruct Hrun as (fetch & downloaded & imagePath & imageUrl & usedUrl & Hfetch & Hrun).
    cbv zeta in Hrun.
    destruct (pushToDevice_calls driverExt imageUrl usedUrl (assertBool (request !! "cleanup")).1
                (assertBool (request !! "clearBefore")).1 imagePath downloaded env
                (h ++ setupXTDriver_call request driverExt setupErr :: fetch))
      as (cleared & pushed & removed & message & Hdev).
    rewrite Hdev in Hrun. clear Hdev. rewrite <- app_assoc in Hrun.
    exists driverExt, setupErr, fetch.
    eexists. rewrite (callsOf_app _ _ _ _ (f_equal snd Hrun)), Hrun. cbn [fst].
    split; [reflexivity|]. split.
    { destruct Hfetch as [[-> _]|(url & path & sniff & -> & _ & _ & _ & Hsniff & _)];
        [constructor|].
      constructor; [reflexivity|]. apply sniffer_never_pushes. exact Hsniff. }
    right. eexists _, imagePath, pushed, _. split; [reflexivity|].
    split; [destruct (assertBool (request !! "clearBefore")).1; repeat constructor|].
    split; [destruct (downloaded && _); repeat constructor|].
    destruct pushed; [reflexivity|]. eexists _, _. split; reflexivity.
Qed.

(** X8: the handler answers with a response exactly when the device has
    accepted the image.  A run ends with a response and no error, and then
    the image of the response is the one the device accepted; or it ends
    with an error and no response, and then no push was accepted.  No
    failure of the clearing, of the sniffing or of the cleanup changes
    that. *)
Theorem response_iff_image_pushed env h request :
  let calls := callsOf (ToolPushImage_Implement request) env h in
  match (ToolPushImage_Implement request env h).1 with
  | (Some (ToolSuccess _ (PushImageData data)), None) =>
      ∃ driverExt, PushImage_call driverExt (ImagePath data) None ∈ calls
  | (None, Some _) => Forall (λ e, isAcceptedPush e = false) calls
  | _ => False
  end.
Proof.
  intros calls. subst calls.
  destruct (ToolPushImage_Implement_shape env h request)
    as (driverExt & setupErr & fetch & device & -> & Hfetch & Hdevice).
  apply isAcceptedPush_isPush in Hfetch.
  destruct Hdevice as [[-> [e ->]]|(clearCalls & imagePath & pushed & removeCalls
                                    & -> & Hclear & Hremove & Hrun)].
  - rewrite app_nil_r. constructor; [reflexivity|exact Hfetch].
  - apply isAcceptedPush_isPush in Hclear, Hremove.
    destruct pushed as [e|].
    + rewrite Hrun. constructor; [reflexivity|].
      apply Forall_app. split; [exact Hfetch|].
      apply Forall_app. split; [exact Hclear|].
      constructor; [reflexivity|exact Hremove].
    + destruct Hrun as (message & data & -> & <-). exists driverExt.
      apply list_elem_of_further, elem_of_app. right.
      apply elem_of_app. right. apply list_elem_of_here.
Qed.







(** ** The device that the handlers act on *)

(** X11: [select_device] names the device that the other handlers act on.
    For the same arguments, [select_device], [push_image] and [clear_image]
    all start with the one device setup of the run.  When it fails, each of
    them returns its error as it is, with no response and no other call.
    When it succeeds, [select_device] reports the UUID of the resolved
    device, and every call that [push_image] and [clear_image] make to a
    device is made to that device. *)
Theorem handlers_act_on_the_selected_device env h request :
  let resolved := env_setupXTDriver env h request in
  let setup := setupXTDriver_call request resolved.1 resolved.2 in
  select_device.Implement request env h =
    (match resolved.2 with
     | Some e => (None, Some e)
     | None =>
         (Some (ResponseSuccess ("Selected device: " +:+ DeviceUUID resolved.1)
                  {| select_device.DeviceUUID := DeviceUUID resolved.1 |}), None)
     end, h ++ [setup])
  ∧ ∀ handler, handler ∈ [ToolPushImage_Implement; ToolClearImage_Implement] →
      ∃ rest,
        callsOf (handler request) env h = setup :: rest
        ∧ Forall (λ e, isSetup e = false ∧ ∀ d, deviceOf e = Some d → d = resolved.1) rest
        ∧ ∀ e, resolved.2 = Some e →
               rest = [] ∧ (handler request env h).1 = (None, Some e).
Proof.
  intros resolved setup. subst resolved setup. split.
  { unfold select_device.Implement, GetDevice_UUID. unfold_run.
    destruct (env_setupXTDriver env h request) as [driverExt [e|]]; reflexivity. }
  intros handler Hhandler.
  apply elem_of_cons in Hhandler as [->|Hhandler];
    [|apply elem_of_cons in Hhandler as [->|Hhandler];
      [|apply elem_of_nil in Hhandler; contradiction]].
  - unfold callsOf. rewrite ToolPushImage_Implement_run.
    destruct (env_setupXTDriver env h request) as [driverExt [e|]]; cbn [fst snd].
    { rewrite drop_app_length. exists []. split; [reflexivity|]. split; [constructor|].
      intros e' He'. injection He' as <-. split; reflexivity. }
    destruct (assertString (request !! "imagePath")) as [imagePath hasPath].
    destruct (assertString (request !! "imageUrl")) as [imageUrl hasUrl].
    destruct (_ && _).
    { cbn [snd]. rewrite drop_app_length. exists []. split; [reflexivity|].
      split; [constructor|]. intros e' He'. discriminate He'. }
    destruct (hasUrl && _).
    + destruct (env_DownloadFileByUrl env _ imageUrl) as [downloadedPath [e|]].
      { cbn [snd]. rewrite <- app_assoc, drop_app_length. eexists. split; [reflexivity|].
        split; [|intros e' He'; discriminate He'].
        constructor; [|constructor]. split; [reflexivity|]. intros d Hd. discriminate Hd. }
      destruct (DetectAndRenameImageFile_calls env
                  ((h ++ [setupXTDriver_call request driverExt None]) ++
                   [DownloadFileByUrl_call imageUrl downloadedPath None]) downloadedPath)
        as (sniff & Hsniff & Hall & _).
      destruct (DetectAndRenameImageFile downloadedPath env _) as [[renamedPath err] h3].
      cbn [snd] in Hsniff. subst h3.
      match goal with
      | |- context [pushToDevice ?d ?u ?b ?c ?cb ?p ?dl env ?h'] =>
          destruct (pushToDevice_calls d u b c cb p dl env h')
            as (cleared & pushed & removed & message & ->)
      end.
      cbn [snd]. rewrite <- !app_assoc, drop_app_length. eexists. split; [reflexivity|].
      split; [|intros e' He'; discriminate He'].
      constructor; [split; [reflexivity|intros d Hd; discriminate Hd]|].
      apply Forall_app. split.
      { eapply Forall_impl; [exact Hall|]. intros e He.
        destruct e; try discriminate He; (split; [reflexivity|intros d Hd; discriminate Hd]). }
      destruct (assertBool (request !! "clearBefore")).1, (true && _);
        repeat (constructor; [split; [reflexivity|intros d Hd; cbn in Hd; congruence]|]);
        constructor.
    + match goal with
      | |- context [pushToDevice ?d ?u ?b ?c ?cb ?p ?dl env ?h'] =>
          destruct (pushToDevice_calls d u b c cb p dl env h')
            as (cleared & pushed & removed & message & ->)
      end.
      cbn [snd]. rewrite <- !app_assoc, drop_app_length. eexists. split; [reflexivity|].
      split; [|intros e' He'; discriminate He'].
      destruct (assertBool (request !! "clearBefore")).1, (false && _);
        repeat (constructor; [split; [reflexivity|intros d Hd; cbn in Hd; congruence]|]);
        constructor.
  - unfold callsOf, ToolClearImage_Implement. unfold_run.
    destruct (env_setupXTDriver env h request) as [driverExt [e|]].
    { rewrite drop_app_length. exists []. split; [reflexivity|]. split; [constructor|].
      intros e' He'. injection He' as <-. split; reflexivity. }
    destruct (env_ClearImages env _ driverExt) as [e|];
      rewrite <- app_assoc, drop_app_length; (eexists; split; [reflexivity|]);
      (split; [|intros e' He'; discriminate He']);
      (constructor; [split; [reflexivity|intros d Hd; cbn in Hd; congruence]|constructor]).
Qed.

(** X12: [clear_image] passes every failure on as it is.  A run ends in one
    of three ways: the device could not be resolved, and the error of the
    setup is returned with the gallery untouched; the clearing failed, and
    the error of the driver is returned; or the clearing succeeded, and the
    response says so.  There is no response with [Success = false], and
    never a response together with an error. *)
Theorem clear_image_outcomes env h request :
  let calls := callsOf (ToolClearImage_Implement request) env h in
  match (ToolClearImage_Implement request env h).1 with
  | (Some response, None) =>
      response = ToolSuccess "Successfully cleared images from device"
                   (ClearImageData {| Success := true |})
      ∧ ∃ driverExt, calls = [setupXTDriver_call request driverExt None;
                              ClearImages_call driverExt None]
  | (None, Some e) =>
      ∃ driverExt,
        calls = [setupXTDriver_call request driverExt (Some e)]
        ∨ calls = [setupXTDriver_call request driverExt None;
                   ClearImages_call driverExt (Some e)]
  | _ => False
  end.
Proof.
  intros calls. subst calls. unfold callsOf, ToolClearImage_Implement. unfold_run.
  destruct (env_setupXTDriver env h request) as [driverExt [e|]].
  { rewrite drop_app_length. exists driverExt. left. reflexivity. }
  destruct (env_ClearImages env _ driverExt) as [e|];
    rewrite <- app_assoc, drop_app_length.
  - exists driverExt. right. reflexivity.
  - split; [reflexivity|]. exists driverExt. reflexivity.
Qed.

(** ** More on [list_available_devices] *)

Example list_devices_without_adb :
  (ToolListAvailableDevices_Implement ∅ noAdb []).1
  = (Some (ToolSuccess "Found 1 available devices (0 Android, 1 iOS)"
             (ListAvailableDevicesData
                {| AndroidDevices := []; IosDevices := ["serial-of-00008030-A"];
                   TotalCount := 1; AndroidCount := 0; IosCount := 1 |})),
     None).
Proof. vm_compute. reflexivity. Qed.

(** The loop over the iOS devices, call by call. *)
Lemma iosSerials_trace env devices : ∀ serialList h,
  ∃ calls,
    iosSerials devices serialList env h = (serialList ++ pairedSerials calls, h ++ calls)
    ∧ wellPaired calls = true
    ∧ omap builtUdid calls = map (λ dev, SerialNumber (Properties dev)) devices.
Proof.
  induction devices as [|dev devices IH]; intros serialList h.
  - exists []. rewrite !app_nil_r. repeat split.
  - cbn [iosSerials]. unfold_calls.
    destruct (env_NewIOSDevice env h _) as [device [e|]] eqn:Hbuild; cbn [fst snd].
    + destruct (IH serialList (h ++ [NewIOSDevice_call (SerialNumber (Properties dev)) device (Some e)]))
        as (calls & -> & Hwell & Hudids).
      exists (NewIOSDevice_call (SerialNumber (Properties dev)) device (Some e) :: calls).
      rewrite snoc_app. split; [reflexivity|]. split; [exact Hwell|].
      cbn [omap list_omap builtUdid map]. rewrite <- Hudids. reflexivity.
    + destruct (env_Pair env _ dev) as [e|] eqn:Hpair; cbn [fst snd].
      * destruct (IH serialList
                    ((h ++ [NewIOSDevice_call (SerialNumber (Properties dev)) device None]) ++
                     [ios_Pair_call dev (Some e)]))
          as (calls & -> & Hwell & Hudids).
        exists (NewIOSDevice_call (SerialNumber (Properties dev)) device None
                  :: ios_Pair_call dev (Some e) :: calls).
        rewrite !snoc_app. split; [reflexivity|].
        split; [cbn [wellPaired]; rewrite String.eqb_refl; exact Hwell|].
        cbn [omap list_omap builtUdid map]. rewrite <- Hudids. reflexivity.
      * destruct (IH (serialList ++ [SerialNumber (IOSDevice_Properties device)])
                    ((h ++ [NewIOSDevice_call (SerialNumber (Properties dev)) device None]) ++
                     [ios_Pair_call dev None]))
          as (calls & -> & Hwell & Hudids).
        exists (NewIOSDevice_call (SerialNumber (Properties dev)) device None
                  :: ios_Pair_call dev None :: calls).
        rewrite !snoc_app. split; [cbn [pairedSerials]; reflexivity|].
        split; [cbn [wellPaired]; rewrite String.eqb_refl; exact Hwell|].
        cbn [omap list_omap builtUdid map]. rewrite <- Hudids. reflexivity.
Qed.

(** X13: the two platforms are listed independently of each other.  Every
    run asks adb first and then, whatever adb has answered, enumerates the
    iOS devices, once.  When adb lists its devices, the Android list of the
    response is their serial numbers, all of them and in the order of the
    enumeration; when adb cannot be reached or fails to list, the Android
    list is empty and the iOS devices are listed all the same. *)
Theorem android_and_ios_are_listed_independently env h request :
  ∃ message data adb iosDevices iosErr loop,
    ToolListAvailableDevices_Implement request env h =
      ((Some (ToolSuccess message (ListAvailableDevicesData data)), None),
       h ++ adb ++ ios_ListDevices_call iosDevices iosErr :: loop)
    ∧ Forall (λ e, isPairingCall e = true) loop
    ∧ ((∃ e, adb = [gadb_NewClient_call (Some e)] ∧ AndroidDevices data = [])
       ∨ (∃ devices e, adb = [gadb_NewClient_call None; gadb_DeviceList_call devices (Some e)]
                       ∧ AndroidDevices data = [])
       ∨ (∃ devices, adb = [gadb_NewClient_call None; gadb_DeviceList_call devices None]
                     ∧ AndroidDevices data = map Serial devices)).
Proof.
  unfold ToolListAvailableDevices_Implement, NewMCPSuccessResponse. unfold_calls.
  destruct (env_NewClient env h) as [e|]; cbn [fst snd];
    [|destruct (env_DeviceList env _) as [androidDevices [e|]]; cbn [fst snd]];
    (destruct (env_ListDevices env _) as [iosDevices [e'|]]; cbn [fst snd];
     [|match goal with
       | |- context [iosSerials iosDevices [] env ?h'] =>
           destruct (iosSerials_calls env iosDevices [] h') as (calls & Hcalls & Hall & Hlen);
           destruct (iosSerials iosDevices [] env h') as [serialList h''];
           cbn [fst snd] in Hcalls, Hlen; subst h''
       end]).
  all: eexists _, _.
  1, 2: exists [gadb_NewClient_call (Some e)].
  3, 4: exists [gadb_NewClient_call None; gadb_DeviceList_call androidDevices (Some e)].
  5, 6: exists [gadb_NewClient_call None; gadb_DeviceList_call androidDevices None].
  all: eexists _, _, _;
    (split; [rewrite <- ?app_assoc; reflexivity|]);
    (split; [first [exact Hall | constructor]|]);
    cbn [AndroidDevices]; lookup_devices.
  1, 2: left; eexists; split; reflexivity.
  1, 2: right; left; eexists _, _; split; reflexivity.
  1, 2: right; right; eexists; split; reflexivity.
Qed.

(** X14: the iOS devices listed are the ones that were built and paired.
    When the enumeration succeeds, the loop takes the enumerated devices
    one by one, in their order and each once: it builds the driver for the
    UDID of the device and, only when that has succeeded, pairs the device.
    The iOS list of the response holds one serial number for each device
    whose pairing has succeeded, in that order, and it is the number that
    the built driver reports.  When the enumeration fails, no driver is
    built, nothing is paired and the list is empty. *)
Theorem ios_devices_are_the_paired_ones env h request :
  ∃ message data adb iosDevices iosErr loop,
    ToolListAvailableDevices_Implement request env h =
      ((Some (ToolSuccess message (ListAvailableDevicesData data)), None),
       h ++ adb ++ ios_ListDevices_call iosDevices iosErr :: loop)
    ∧ Forall (λ e, isAdbCall e = true) adb
    ∧ match iosErr with
      | Some _ => loop = [] ∧ IosDevices data = []
      | None =>
          wellPaired loop = true
          ∧ omap builtUdid loop = map (λ dev, SerialNumber (Properties dev)) iosDevices
          ∧ IosDevices data = pairedSerials loop
      end.
Proof.
  unfold ToolListAvailableDevices_Implement, NewMCPSuccessResponse. unfold_calls.
  destruct (env_NewClient env h) as [e|]; cbn [fst snd];
    [|destruct (env_DeviceList env _) as [androidDevices [e|]]; cbn [fst snd]];
    (destruct (env_ListDevices env _) as [iosDevices [e'|]]; cbn [fst snd];
     [|match goal with
       | |- context [iosSerials iosDevices [] env ?h'] =>
           destruct (iosSerials_trace env iosDevices [] h') as (calls & -> & Hwell & Hudids)
       end; cbn [fst snd]]).
  all: eexists _, _.
  1, 2: exists [gadb_NewClient_call (Some e)].
  3, 4: exists [gadb_NewClient_call None; gadb_DeviceList_call androidDevices (Some e)].
  5, 6: exists [gadb_NewClient_call None; gadb_DeviceList_call androidDevices None].
  all: eexists _, _, _;
    (split; [rewrite <- ?app_assoc; reflexivity|]);
    (split; [repeat constructor|]);
    cbn [IosDevices]; lookup_devices.
  all: first [split; reflexivity | split; [exact Hwell|split; [exact Hudids|reflexivity]]].
Qed.

(** ** More on the reverse mapping of [push_image] *)

Lemma supplied_storable f m v : supplied f m = Some v → storable f v.
Proof.
  unfold supplied, storable.
  destruct f; destruct (m !! _) as [[s|b|z|p]|]; try discriminate;
    try (destruct (String.eqb s "") eqn:Hs; [discriminate|];
         intros H; injection H as <-; apply String.eqb_neq; exact Hs);
    intros H; injection H as <-; exact I.
Qed.

Lemma byPrecedence_storable action f v : byPrecedence action f = Some v → storable f v.
Proof.
  unfold byPrecedence, customOverride, nestedMapping, bareScalar.
  destruct (supplied f (Custom (Options action))) as [v'|] eqn:Hcustom.
  { intros H. injection H as <-. exact (supplied_storable _ _ _ Hcustom). }
  destruct (Params action) as [[s|b|z|params]|]; try (destruct f; discriminate).
  - destruct f; try discriminate. destruct (String.eqb s "") eqn:Hs; [discriminate|].
    intros H. injection H as <-. apply String.eqb_neq. exact Hs.
  - destruct (supplied f params) as [v'|] eqn:Hnested.
    + intros H. injection H as <-. exact (supplied_storable _ _ _ Hnested).
    + destruct f; discriminate.
Qed.

Lemma supplied_lookup f (m : gmap string any) r :
  m !! fieldName f = r → (∀ v, r = Some v → storable f v) → supplied f m = r.
Proof.
  intros Hm Hr. unfold supplied.
  destruct f; rewrite Hm; (destruct r as [v|]; [|reflexivity]);
    specialize (Hr v eq_refl); unfold storable in Hr;
    destruct v as [s|b|z|p]; try contradiction; try reflexivity;
    apply String.eqb_neq in Hr; rewrite Hr; reflexivity.
Qed.

Lemma fieldName_cases key : (∃ f, key = fieldName f) ∨ (∀ f, key ≠ fieldName f).
Proof.
  destruct (decide (key = "imageUrl")) as [->|?]; [left; exists field_imageUrl; reflexivity|].
  destruct (decide (key = "imagePath")) as [->|?]; [left; exists field_imagePath; reflexivity|].
  destruct (decide (key = "cleanup")) as [->|?]; [left; exists field_cleanup; reflexivity|].
  destruct (decide (key = "clearBefore")) as [->|?];
    [left; exists field_clearBefore; reflexivity|].
  right. intros []; assumption.
Qed.

(** X15: the reverse mapping is idempotent.  The arguments that it builds
    for an action are in its normal form: given back to it, as the nested
    mapping of an action without custom overrides or as the custom
    overrides of an action without parameters, they come out as they
    are. *)
Theorem reverse_mapping_is_idempotent action method :
  let arguments := pushImageArguments action in
  pushImageArguments
    {| Method := method; Params := Some (AMap arguments); Options := {| Custom := ∅ |} |}
    = arguments
  ∧ pushImageArguments
      {| Method := method; Params := None; Options := {| Custom := arguments |} |}
    = arguments.
Proof.
  intros arguments. subst arguments.
  assert (Hsupplied : ∀ f, supplied f (pushImageArguments action) = byPrecedence action f).
  { intros f. apply supplied_lookup; [apply pushImageArguments_field|].
    intros v. apply byPrecedence_storable. }
  assert (Hempty : ∀ f, supplied f (∅ : gmap string any) = None).
  { intros f. unfold supplied. rewrite lookup_empty. destruct f; reflexivity. }
  split; apply map_eq; intros key;
    (destruct (fieldName_cases key) as [[f ->]|Hother];
     [|rewrite !pushImageArguments_other by exact Hother; reflexivity]);
    rewrite !pushImageArguments_field;
    unfold byPrecedence at 1; unfold customOverride, nestedMapping, bareScalar;
    cbn [Params Options Custom]; rewrite ?Hempty, Hsupplied;
    destruct (byPrecedence action f), f; reflexivity.
Qed.

(** X17: the reverse mapping only builds arguments that the tool declares.
    Every key of the argument set is one of the options of [push_image],
    with a value of the declared type; the device arguments [platform] and
    [serial] are never set by it. *)
Theorem reverse_mapping_builds_declared_arguments action :
  (∀ key v, pushImageArguments action !! key = Some v →
            ∃ o, o ∈ ToolPushImage_Options ∧ declares o key v)
  ∧ pushImageArguments action !! "platform" = None
  ∧ pushImageArguments action !! "serial" = None.
Proof.
  split; [|split; apply pushImageArguments_other; intros []; discriminate].
  intros key v Hv.
  destruct (fieldName_cases key) as [[f ->]|Hother];
    [|rewrite pushImageArguments_other in Hv by exact Hother; discriminate Hv].
  rewrite pushImageArguments_field in Hv. apply byPrecedence_storable in Hv.
  unfold storable in Hv.
  destruct f, v as [s|b|z|p]; try contradiction; cbn [fieldName].
  - exists (mcp_WithString "imageUrl"
              [mcp_Description "URL of the image to download and push to the device"]).
    split; [set_solver|]. split; [reflexivity|]. intros values Hvalues.
    apply elem_of_cons in Hvalues as [H|H]; [discriminate H|apply elem_of_nil in H; contradiction].
  - exists (mcp_WithString "imagePath"
              [mcp_Description "Path to the local image file to push to the device"]).
    split; [set_solver|]. split; [reflexivity|]. intros values Hvalues.
    apply elem_of_cons in Hvalues as [H|H]; [discriminate H|apply elem_of_nil in H; contradiction].
  - exists (mcp_WithBoolean "cleanup"
              [mcp_Description "Whether to delete the downloaded file after pushing it to the device"]).
    split; [set_solver|reflexivity].
  - exists (mcp_WithBoolean "clearBefore"
              [mcp_Description "Whether to clear images before pushing (if applicable)"]).
    split; [set_solver|reflexivity].
Qed.

(** X16: what the handler does with a converted action is decided by the
    precedence of the sources.  Let the request carry, for the four fields,
    the arguments that the reverse mapping builds for an action, and let
    the device be resolved.  If some source supplies a URL, the handler
    downloads the URL of the highest source, also when a path is supplied.
    If none supplies a URL and some source supplies a path, the path of the
    highest source is pushed, after the clearing if that is asked for, and
    nothing else is called.  If no source supplies either, the handler
    stops after the setup with the argument error. *)
Theorem converted_action_runs_by_precedence env h request action driverExt :
  let setup := setupXTDriver_call request driverExt None in
  let calls := callsOf (ToolPushImage_Implement request) env h in
  env_setupXTDriver env h request = (driverExt, None) →
  (∀ f, request !! fieldName f = pushImageArguments action !! fieldName f) →
  match byPrecedence action field_imageUrl, byPrecedence action field_imagePath with
  | Some (AString url), _ =>
      ∃ path err rest, calls = setup :: DownloadFileByUrl_call url path err :: rest
  | None, Some (AString path) =>
      ∃ cleared pushed,
        calls = setup :: (if (assertBool (request !! "clearBefore")).1
                          then [ClearImages_call driverExt cleared] else [])
                      ++ [PushImage_call driverExt path pushed]
  | None, None =>
      ToolPushImage_Implement request env h = ((None, Some argumentError), h ++ [setup])
  | _, _ => False
  end.
Proof.
  intros setup calls Hsetup Hrequest. subst setup calls.
  pose proof (Hrequest field_imageUrl) as Hurl.
  pose proof (Hrequest field_imagePath) as Hpath.
  rewrite pushImageArguments_field in Hurl, Hpath. cbn [fieldName] in Hurl, Hpath.
  pose proof (byPrecedence_storable action field_imageUrl) as HurlOk.
  pose proof (byPrecedence_storable action field_imagePath) as HpathOk.
  unfold callsOf. rewrite ToolPushImage_Implement_run, Hsetup. cbv zeta.
  rewrite Hurl, Hpath.
  destruct (byPrecedence action field_imageUrl) as [v|].
  - specialize (HurlOk v eq_refl). destruct v as [url|b|z|p]; try contradiction.
    cbn [storable] in HurlOk. apply String.eqb_neq in HurlOk.
    destruct (assertString (byPrecedence action field_imagePath)) as [imagePath hasPath].
    cbn [assertString]. rewrite HurlOk. cbn [negb orb andb]. rewrite andb_false_r.
    destruct (env_DownloadFileByUrl env _ url) as [downloadedPath [e|]].
    { cbn [snd]. rewrite <- app_assoc, drop_app_length. eexists _, _, _. reflexivity. }
    destruct (DetectAndRenameImageFile_calls env
                ((h ++ [setupXTDriver_call request driverExt None]) ++
                 [DownloadFileByUrl_call url downloadedPath None]) downloadedPath)
      as (sniff & Hsniff & _).
    destruct (DetectAndRenameImageFile downloadedPath env _) as [[renamedPath err] h3].
    cbn [snd] in Hsniff. subst h3.
    match goal with
    | |- context [pushToDevice ?d ?u ?b ?c ?cb ?p ?dl env ?h'] =>
        destruct (pushToDevice_calls d u b c cb p dl env h')
          as (cleared & pushed & removed & message & ->)
    end.
    cbn [snd]. rewrite <- !app_assoc, drop_app_length. eexists _, _, _. reflexivity.
  - cbn [assertString negb orb andb].
    destruct (byPrecedence action field_imagePath) as [v|]; [|reflexivity].
    specialize (HpathOk v eq_refl). destruct v as [path|b|z|p]; try contradiction.
    cbn [storable] in HpathOk. apply String.eqb_neq in HpathOk.
    cbn [assertString]. rewrite HpathOk. cbn [negb orb andb].
    match goal with
    | |- context [pushToDevice ?d ?u ?b ?c ?cb ?p ?dl env ?h'] =>
        destruct (pushToDevice_calls d u b c cb p dl env h')
          as (cleared & pushed & removed & message & ->)
    end.
    cbn [snd andb]. rewrite <- !app_assoc, drop_app_length, app_nil_r.
    exists cleared, pushed. reflexivity.
Qed.

Lemma converted_action_runs_by_precedence_witness :
  ∃ path err rest,
    callsOf (ToolPushImage_Implement (pushImageArguments urlAndCustomPath)) (calm pngSignature) [] =
      setupXTDriver_call (pushImageArguments urlAndCustomPath) pixel None
        :: DownloadFileByUrl_call "http://example.com/pic" path err :: rest.
Proof.
  exact (converted_action_runs_by_precedence (calm pngSignature) []
           (pushImageArguments urlAndCustomPath) urlAndCustomPath pixel
           eq_refl (λ f, eq_refl)).
Defined.

(** ** [screenrecord] *)

Module screenrecord_properties.
Import screenrecord.

Example screen_record_on_a_busy_device :
  Implement (λ _, {| Duration := 0; ScreenRecordDuration := 0;
                     ScreenRecordWithScrcpy := false; ScreenRecordWithAudio := false |})
            {[ "duration" := AFloat64 0; "screenRecordWithScrcpy" := ABool true ]} broken []
  = ((Some (ResponseFailure "Failed to record screen: screenrecord: device busy"), None),
     [setupXTDriver_call {[ "duration" := AFloat64 0; "screenRecordWithScrcpy" := ABool true ]}
                         pixel None;
      ScreenRecord_call pixel [WithScreenRecordScrcpy true; WithContext] ""
                        (Some (errorString "screenrecord: device busy"))]).
Proof. vm_compute. reflexivity. Qed.

Example screen_record_to_a_file :
  (Implement (λ opts, {| Duration := 0; ScreenRecordDuration := 0;
                         ScreenRecordWithScrcpy := false;
                         ScreenRecordWithAudio :=
                           existsb (λ o, match o with
                                         | WithScreenRecordAudio audio => audio
                                         | _ => false
                                         end) opts |})
             {[ "screenRecordWithAudio" := ABool true ]} recorder []).1
  = (Some (ResponseSuccess
             "Screen recording completed successfully. Video saved to: /tmp/record.mp4"
             {| VideoPath := "/tmp/record.mp4"; ToolScreenRecord_Duration := 0;
                Method := "scrcpy" |}), None).
Proof. vm_compute. reflexivity. Qed.

(** X18: the options of a recording say something, and come in one order.
    Whatever the arguments, the list that the handler builds holds at most
    one duration, one path, the audio flag and the scrcpy flag, in this
    order, and ends with the context.  A duration in it is positive, a path
    in it is not empty, and a flag in it is set: there is no option for
    [false], for zero or for the empty path. *)
Theorem record_options_say_something arguments :
  let opts := recordOptions arguments in
  ranked 0 opts = true
  ∧ Forall (λ o, effective o = true) opts
  ∧ last opts = Some WithContext.
Proof.
  intros opts. subst opts. unfold recordOptions.
  destruct (assertFloat64 (arguments !! "duration")) as [duration [|]];
    [destruct (float64_positive duration) eqn:Hduration|];
    (destruct (assertString (arguments !! "screenRecordPath")) as [path [|]];
     [destruct (String.eqb path "") eqn:Hpath|]);
    (destruct (assertBool (arguments !! "screenRecordWithAudio")) as [[|] [|]]);
    (destruct (assertBool (arguments !! "screenRecordWithScrcpy")) as [[|] [|]]);
    cbn [andb negb app];
    (split; [reflexivity|split; [|reflexivity]]);
    repeat (constructor; [first [exact Hduration | cbn [effective]; rewrite Hpath; reflexivity
                                | reflexivity]|]);
    constructor.
Qed.

(** X19: an argument that says nothing is as good as absent.  A duration
    that is zero, negative or not a number, an empty path, a flag that is
    [false], and a value of another type than the argument has, or under a
    key that the handler does not read, change nothing: the options of the
    recording are those of the request without that argument. *)
Theorem unheeded_argument_is_as_absent arguments key v :
  heeded key v = false →
  recordOptions (<[key := v]> arguments) = recordOptions (delete key arguments).
Proof.
  intros Hheeded. unfold recordOptions.
  assert (Hlookup : ∀ key', key' ≠ key →
            <[key := v]> arguments !! key' = delete key arguments !! key').
  { intros key' Hne. rewrite lookup_insert_ne, lookup_delete_ne by congruence. reflexivity. }
  destruct (decide (key = "duration")) as [->|?];
    [|destruct (decide (key = "screenRecordPath")) as [->|?];
      [|destruct (decide (key = "screenRecordWithAudio")) as [->|?];
        [|destruct (decide (key = "screenRecordWithScrcpy")) as [->|?]]]].
  all: try rewrite (Hlookup "duration") by (first [discriminate | congruence]).
  all: try rewrite (Hlookup "screenRecordPath") by (first [discriminate | congruence]).
  all: try rewrite (Hlookup "screenRecordWithAudio") by (first [discriminate | congruence]).
  all: try rewrite (Hlookup "screenRecordWithScrcpy") by (first [discriminate | congruence]).
  5: reflexivity.
  all: rewrite lookup_insert_eq, lookup_delete_eq;
    destruct v as [s|b|bits|m]; cbn in Hheeded |- *; rewrite ?Hheeded; reflexivity.
Qed.

Lemma unheeded_argument_is_as_absent_witness :
  recordOptions (<["duration" := AFloat64 0]> {[ "screenRecordWithAudio" := ABool true ]})
  = recordOptions (delete "duration" {[ "screenRecordWithAudio" := ABool true ]}).
Proof.
  apply (unheeded_argument_is_as_absent {[ "screenRecordWithAudio" := ABool true ]}
           "duration" (AFloat64 0)).
  reflexivity.
Defined.

Section Outcomes.

Variable NewActionOptions : list ActionOption → ActionOptions.

(** X20: a recording that fails is reported in a response, not as an
    error.  A run of [screenrecord] ends in one of three ways.  The device
    could not be resolved: the error of the setup is returned, with no
    response, and no recording is tried.  The recording failed: the handler
    returns a failure response that quotes the error of the driver, and no
    error.  The recording succeeded: the response names the video file that
    the driver returned, and the method [adb] or [scrcpy].  In the last two
    cases the one call after the setup is the recording on the resolved
    device, with the options of the arguments. *)
Theorem screen_record_outcomes env h request :
  let run := Implement NewActionOptions request env h in
  ∃ driverExt,
    match run.1 with
    | (None, Some e) =>
        run.2 = h ++ [setupXTDriver_call request driverExt (Some e)]
    | (Some (ResponseFailure message), None) =>
        ∃ videoPath e,
          run.2 = h ++ [setupXTDriver_call request driverExt None;
                        ScreenRecord_call driverExt (recordOptions request) videoPath (Some e)]
          ∧ message = "Failed to record screen: " +:+ Error e
    | (Some (ResponseSuccess message data), None) =>
        run.2 = h ++ [setupXTDriver_call request driverExt None;
                      ScreenRecord_call driverExt (recordOptions request) (VideoPath data) None]
        ∧ message = "Screen recording completed successfully. Video saved to: "
                    +:+ VideoPath data
        ∧ (Method data = "adb" ∨ Method data = "scrcpy")
    | _ => False
    end.
Proof.
  intros run. subst run.
  unfold Implement, setupXTDriver, IDriver_ScreenRecord.
  cbv beta iota zeta delta [mbind M_bind mret M_ret].
  destruct (env_setupXTDriver env h request) as [driverExt [e|]]; cbn [fst snd].
  { exists driverExt. reflexivity. }
  destruct (env_ScreenRecord env _ driverExt _) as [videoPath [e|]]; cbn [fst snd];
    exists driverExt; rewrite <- app_assoc.
  - exists videoPath, e. split; reflexivity.
  - split; [reflexivity|]. split; [reflexivity|].
    cbn [Method]. destruct (_ || _); [right|left]; reflexivity.
Qed.

End Outcomes.

End screenrecord_properties.
